(** * The [Watch] effect of the reactive core

    A shallow embedding of the [Watch] class: its constructor, [notify],
    [run], [cleanup] and the [registerOnCleanup] callback, together with the
    global active-consumer register of [./graph] that [run] saves and
    restores.

    The class is stateful and calls back into code it does not own (the
    watch function, the schedule hook, the registered cleanup function), any
    of which may throw.  Methods are therefore written in a small monad that
    threads the heap, carries a JavaScript completion (normal or throw) and
    records every call a method makes, with the heap the callee was entered
    in.

    The second part embeds [ComponentNgElementStrategy], the class that
    backs a custom element (module [Elements]), in the same style: its
    fields, the collaborators it calls as parameters, and its methods, with
    their properties in [ElementsFacts]. *)

From Stdlib Require Import NArith List Bool Lia.
From Stdlib Require String.
Import ListNotations.

Local Open Scope N_scope.

(* ================================================================= *)
(** ** Data *)

Section Model.

(** [Graph] is the rest of the program's mutable state (the producers, the
    dependency edges, whatever the user's closures capture); [Exn] is the
    type of thrown values. *)
Context {Graph Exn : Type}.

(** A [ReactiveNode] object, by identity. *)
Definition ReactiveNode := nat.

(** [type WatchCleanupFn = () => void].  The field [cleanupFn] holds either
    the module constant [NOOP_CLEANUP_FN] or a closure the watch function
    registered; closures are named, and run by the host
    ([registered_cleanup]). *)
Inductive WatchCleanupFn : Type :=
| NOOP_CLEANUP_FN
| RegisteredCleanupFn (closure : nat).

(** The mutable state a [Watch] method can touch: the module-level
    [activeConsumer] of [./graph], the instance fields [dirty], [cleanupFn]
    and the inherited [trackingVersion] (a counter: it starts at 0 and is
    only ever incremented), and the rest of the world. *)
Record Heap : Type := mkHeap {
  activeConsumer : option ReactiveNode;
  dirty : bool;
  cleanupFn : WatchCleanupFn;
  trackingVersion : N;
  graph : Graph
}.

Definition with_activeConsumer (c : option ReactiveNode) (h : Heap) : Heap :=
  mkHeap c (dirty h) (cleanupFn h) (trackingVersion h) (graph h).

Definition with_dirty (b : bool) (h : Heap) : Heap :=
  mkHeap (activeConsumer h) b (cleanupFn h) (trackingVersion h) (graph h).

Definition with_cleanupFn (f : WatchCleanupFn) (h : Heap) : Heap :=
  mkHeap (activeConsumer h) (dirty h) f (trackingVersion h) (graph h).

Definition with_trackingVersion (v : N) (h : Heap) : Heap :=
  mkHeap (activeConsumer h) (dirty h) (cleanupFn h) v (graph h).

Definition with_graph (g : Graph) (h : Heap) : Heap :=
  mkHeap (activeConsumer h) (dirty h) (cleanupFn h) (trackingVersion h) g.

(** What a call into foreign code does: it returns or throws, and leaves a
    heap behind.  Foreign code may re-enter the public API ([notify], [run],
    [setActiveConsumer], ...), so no field is out of its reach. *)
Inductive Outcome : Type :=
| Returned (h : Heap)
| Thrown (e : Exn) (h : Heap).

Definition outcome_heap (o : Outcome) : Heap :=
  match o with Returned h => h | Thrown _ h => h end.

Definition Callback : Type := Heap -> Outcome.

(** [type WatchCleanupRegisterFn = (cleanupFn: WatchCleanupFn) => void]. *)
Definition WatchCleanupRegisterFn : Type := WatchCleanupFn -> Heap -> Heap.

(** The constructor's arguments, which the instance keeps unchanged, and the
    identity of the instance. *)
Record Watch : Type := mkWatch {
  this : ReactiveNode;
  watch : WatchCleanupRegisterFn -> Callback;
  schedule : ReactiveNode -> Callback;
  consumerAllowSignalWrites : bool
}.

(** What the class relies on from outside its file. *)
Record Host : Type := mkHost {
  (** the body of each registered cleanup closure *)
  registered_cleanup : nat -> Callback;
  (** Modelled from the spec: [ReactiveNode.consumerPollProducersForChange]
      of [./graph], which is not among the sources.  It walks the recorded
      dependency edges of the node, may bring lazily evaluated producers up
      to date, and answers whether at least one dependency really changed.
      It reads the node and the graph and writes only the graph. *)
  consumerPollProducersForChange : ReactiveNode -> Heap -> bool * Graph
}.

(* ================================================================= *)
(** ** The method monad *)

(** A call made by a method of [Watch], with the heap the callee saw on
    entry. *)
Inductive Call : Type :=
| CallSchedule (entry : Heap)
| CallPoll (entry : Heap)
| CallCleanupFn (f : WatchCleanupFn) (entry : Heap)
| CallWatch (entry : Heap).

Inductive Completion (A : Type) : Type :=
| Normal (a : A)
| Throw (e : Exn).

Record Exec (A : Type) : Type := mkExec {
  completion : Completion A;
  heap : Heap;
  calls : list Call
}.

Definition Method (A : Type) : Type := Heap -> Exec A.

Definition ret {A} (a : A) : Method A :=
  fun h => mkExec A (Normal A a) h [].

Definition bind {A B} (m : Method A) (k : A -> Method B) : Method B :=
  fun h =>
    match m h with
    | mkExec _ (Normal _ a) h1 cs1 =>
        match k a h1 with
        | mkExec _ c h2 cs2 => mkExec B c h2 (cs1 ++ cs2)
        end
    | mkExec _ (Throw _ e) h1 cs1 => mkExec B (Throw B e) h1 cs1
    end.

(** [try { body } finally { fin }]: [fin] runs on every exit of [body]; the
    completion of [body] stands unless [fin] itself throws. *)
Definition try_finally {A} (body : Method A) (fin : Method unit) : Method A :=
  fun h =>
    match body h with
    | mkExec _ c h1 cs1 =>
        match fin h1 with
        | mkExec _ (Normal _ _) h2 cs2 => mkExec A c h2 (cs1 ++ cs2)
        | mkExec _ (Throw _ e) h2 cs2 => mkExec A (Throw A e) h2 (cs1 ++ cs2)
        end
    end.

Definition read {A} (field : Heap -> A) : Method A :=
  fun h => mkExec A (Normal A (field h)) h [].

Definition write (upd : Heap -> Heap) : Method unit :=
  fun h => mkExec unit (Normal unit tt) (upd h) [].

(** Calling foreign code: the call is recorded with the heap at entry. *)
Definition invoke (ev : Heap -> Call) (f : Callback) : Method unit :=
  fun h =>
    match f h with
    | Returned h' => mkExec unit (Normal unit tt) h' [ev h]
    | Thrown e h' => mkExec unit (Throw unit e) h' [ev h]
    end.

End Model.

Arguments Heap : clear implicits.
Arguments Outcome : clear implicits.
Arguments Callback : clear implicits.
Arguments Watch : clear implicits.
Arguments Host : clear implicits.
Arguments Call : clear implicits.
Arguments Completion : clear implicits.
Arguments Exec : clear implicits.
Arguments Method : clear implicits.
Arguments Normal {Exn A} a.
Arguments Throw {Exn A} e.
Arguments completion {Graph Exn A} e.
Arguments heap {Graph Exn A} e.
Arguments calls {Graph Exn A} e.

Declare Scope method_scope.
Delimit Scope method_scope with method.
Notation "x <- m ;; k" := (bind m (fun x => k))
  (at level 61, m at next level, right associativity) : method_scope.
Notation "m ;; k" := (bind m (fun _ => k))
  (at level 61, right associativity) : method_scope.

(* ================================================================= *)
(** ** [./graph]: the active-consumer register *)

Module ReactiveGraph.
Section Register.
Context {Graph Exn : Type}.

(** Modelled from the spec: [setActiveConsumer] of [./graph], which is not
    among the sources.  It "swaps the process-wide current consumer slot"
    and "returns the previous occupant so it can be restored". *)
Definition setActiveConsumer (consumer : option ReactiveNode)
  : Method Graph Exn (option ReactiveNode) :=
  fun h =>
    let prevConsumer := activeConsumer h in
    mkExec _ (Normal prevConsumer) (with_activeConsumer consumer h) [].

End Register.
End ReactiveGraph.

(* ================================================================= *)
(** ** [class Watch extends ReactiveNode] *)

Section WatchClass.
Context {Graph Exn : Type}.
Variable host : Host Graph Exn.
Variable w : Watch Graph Exn.

Local Open Scope method_scope.

(** Modelled from the spec: the initial value of [trackingVersion], a field
    [Watch] inherits from [ReactiveNode] of [./graph], which is not among
    the sources.  The guard of [run] is "if this is not the very first run
    AND polling ...", and its test is [this.trackingVersion !== 0]: a node
    that has never run has tracking version 0. *)
Definition initial_trackingVersion : N := 0.

(** The heap right after [new Watch(watch, schedule, allowSignalWrites)],
    built where the register holds [consumer] and the world is [g]: the
    field initialisers give [dirty = false] and
    [cleanupFn = NOOP_CLEANUP_FN]. *)
Definition constructor (consumer : option ReactiveNode) (g : Graph) : Heap Graph :=
  mkHeap consumer false NOOP_CLEANUP_FN initial_trackingVersion g.

(** [registerOnCleanup = (cleanupFn) => { this.cleanupFn = cleanupFn; }] *)
Definition registerOnCleanup : WatchCleanupRegisterFn (Graph := Graph) :=
  fun cleanupFn h => with_cleanupFn cleanupFn h.

(** [this.schedule(this)] *)
Definition call_schedule : Method Graph Exn unit :=
  invoke CallSchedule (schedule w (this w)).

(** What calling the function value [f] does:
    [const NOOP_CLEANUP_FN: WatchCleanupFn = () => {};] *)
Definition apply_cleanupFn (f : WatchCleanupFn) : Callback Graph Exn :=
  match f with
  | NOOP_CLEANUP_FN => fun h => Returned h
  | RegisteredCleanupFn c => registered_cleanup host c
  end.

(** [this.cleanupFn()] *)
Definition call_cleanupFn : Method Graph Exn unit :=
  f <- read cleanupFn ;;
  invoke (CallCleanupFn f) (apply_cleanupFn f).

(** [this.watch(this.registerOnCleanup)] *)
Definition call_watch : Method Graph Exn unit :=
  invoke CallWatch (watch w registerOnCleanup).

(** [this.consumerPollProducersForChange()] *)
Definition call_consumerPollProducersForChange : Method Graph Exn bool :=
  fun h =>
    let '(changed, g) := consumerPollProducersForChange host (this w) h in
    mkExec _ (Normal changed) (with_graph g h) [CallPoll h].

(** [a && b], where [b] is evaluated only if [a] holds. *)
Definition and_then (a : bool) (b : Method Graph Exn bool) : Method Graph Exn bool :=
  if a then b else ret false.

(**
<<
  notify(): void {
    if (!this.dirty) {
      this.schedule(this);
    }
    this.dirty = true;
  }
>> *)
Definition notify : Method Graph Exn unit :=
  d <- read dirty ;;
  (if negb d then call_schedule else ret tt) ;;
  write (with_dirty true).

(**
<<
  run(): void {
    this.dirty = false;
    if (this.trackingVersion !== 0 && !this.consumerPollProducersForChange()) {
      return;
    }

    const prevConsumer = setActiveConsumer(this);
    this.trackingVersion++;
    try {
      this.cleanupFn();
      this.cleanupFn = NOOP_CLEANUP_FN;
      this.watch(this.registerOnCleanup);
    } finally {
      setActiveConsumer(prevConsumer);
    }
  }
>> *)
Definition run : Method Graph Exn unit :=
  write (with_dirty false) ;;
  v <- read trackingVersion ;;
  unchanged <- and_then (negb (v =? 0))
                 (changed <- call_consumerPollProducersForChange ;;
                  ret (negb changed)) ;;
  if unchanged then ret tt
  else
    prevConsumer <- ReactiveGraph.setActiveConsumer (Some (this w)) ;;
    v' <- read trackingVersion ;;
    write (with_trackingVersion (v' + 1)) ;;
    try_finally
      (call_cleanupFn ;;
       write (with_cleanupFn NOOP_CLEANUP_FN) ;;
       call_watch)
      (ReactiveGraph.setActiveConsumer prevConsumer ;; ret tt).

(**
<<
  cleanup() {
    this.cleanupFn();
  }
>> *)
Definition cleanup : Method Graph Exn unit :=
  call_cleanupFn.

(** [notify()] called [n] times in a row; the first throw ends the row. *)
Fixpoint notify_times (n : nat) : Method Graph Exn unit :=
  match n with
  | O => ret tt
  | S n' => notify ;; notify_times n'
  end.

(* ----------------------------------------------------------------- *)
(** *** Vocabulary for the statements about [run] *)

(** What the guard of [run] gets from polling: polling happens after
    [this.dirty = false]. *)
Definition polled (h : Heap Graph) : bool * Graph :=
  consumerPollProducersForChange host (this w) (with_dirty false h).

(** The guard of [run] lets the call through to the [try] block: this is
    the first run, or polling reports a change. *)
Definition passes_guard (h : Heap Graph) : Prop :=
  trackingVersion h = 0 \/ fst (polled h) = true.

(** The calls made by the guard. *)
Definition guard_calls (h : Heap Graph) : list (Call Graph) :=
  if trackingVersion h =? 0 then [] else [CallPoll (with_dirty false h)].

(** The heap in which the [try] block of [run] starts. *)
Definition try_entry (h : Heap Graph) : Heap Graph :=
  let g := if trackingVersion h =? 0 then graph h else snd (polled h) in
  mkHeap (Some (this w)) false (cleanupFn h) (trackingVersion h + 1) g.

(** The functions [this.cleanupFn()] was called on, in order. *)
Definition cleanup_calls (cs : list (Call Graph)) : list WatchCleanupFn :=
  flat_map (fun c => match c with CallCleanupFn f _ => [f] | _ => [] end) cs.

(** The heaps [this.watch(...)] was entered in, in order. *)
Definition watch_calls (cs : list (Call Graph)) : list (Heap Graph) :=
  flat_map (fun c => match c with CallWatch hw => [hw] | _ => [] end) cs.

(** A callback that did not re-enter the watch leaves its dirty flag and
    its tracking version as it found them. *)
Definition leaves_watch_alone (before after : Heap Graph) : Prop :=
  dirty after = dirty before /\ trackingVersion after = trackingVersion before.

(* ----------------------------------------------------------------- *)
(** *** [run] with its steps in the order the specification lists them *)

(** The specification's words for a run that does not short-circuit:
    "invoke any pending cleanup from the previous run, clear it, increment
    the tracking version, install self as active consumer, execute the watch
    function, restore the previous active consumer (guaranteed via
    exit-path-safe restoration), set state to Clean"; a short-circuit goes
    "back to Clean without invoking the user function". *)
Definition run_in_specified_order : Method Graph Exn unit :=
  v <- read trackingVersion ;;
  unchanged <- and_then (negb (v =? 0))
                 (changed <- call_consumerPollProducersForChange ;;
                  ret (negb changed)) ;;
  if unchanged then write (with_dirty false)
  else
    call_cleanupFn ;;
    write (with_cleanupFn NOOP_CLEANUP_FN) ;;
    v' <- read trackingVersion ;;
    write (with_trackingVersion (v' + 1)) ;;
    prevConsumer <- ReactiveGraph.setActiveConsumer (Some (this w)) ;;
    try_finally call_watch (ReactiveGraph.setActiveConsumer prevConsumer ;; ret tt) ;;
    write (with_dirty false).

(* ----------------------------------------------------------------- *)
(** *** The hooks [Watch] overrides *)

(**
<<
  protected override onConsumerDependencyMayHaveChanged(): void {
    this.notify();
  }
>> *)
Definition onConsumerDependencyMayHaveChanged : Method Graph Exn unit :=
  notify.

(**
<<
  protected override onProducerUpdateValueVersion(): void {
    // Watches are not producers.
  }
>> *)
Definition onProducerUpdateValueVersion : Method Graph Exn unit :=
  ret tt.

(** How a notification reaches the watch: [notify()] called directly, or
    the graph calling [onConsumerDependencyMayHaveChanged()]. *)
Inductive Notification : Type :=
| Direct
| FromDependency.

Definition deliver (n : Notification) : Method Graph Exn unit :=
  match n with
  | Direct => notify
  | FromDependency => onConsumerDependencyMayHaveChanged
  end.

(** Notifications delivered one after the other; the first throw ends the
    row. *)
Fixpoint deliver_all (ns : list Notification) : Method Graph Exn unit :=
  match ns with
  | [] => ret tt
  | n :: ns' => deliver n ;; deliver_all ns'
  end.

(* ----------------------------------------------------------------- *)
(** *** More vocabulary *)

(** The guard of [run], as a boolean. *)
Definition guard_passes (h : Heap Graph) : bool :=
  (trackingVersion h =? 0) || fst (polled h).



(** Neither the pending cleanup nor the watch function re-enters the watch
    during a [run()] started in [h]: each leaves the dirty flag and the
    tracking version as it found them. *)
Definition callbacks_leave_watch_alone (h : Heap Graph) : Prop :=
  leaves_watch_alone (try_entry h)
    (outcome_heap (apply_cleanupFn (cleanupFn h) (try_entry h))) /\
  forall hw : Heap Graph,
    leaves_watch_alone hw (outcome_heap (watch w registerOnCleanup hw)).

End WatchClass.

(* ================================================================= *)
(** ** Sample watches *)

Module Samples.

(** The world of the samples is one counter; thrown values are numbers. *)
Definition World := nat.
Definition Error := nat.

(** Polling that never finds a change, and polling that always does. *)
Definition unchanged_poll : ReactiveNode -> Heap World -> bool * World :=
  fun _ h => (false, graph h).
Definition changed_poll : ReactiveNode -> Heap World -> bool * World :=
  fun _ h => (true, graph h).

(** Registered cleanups that count themselves in the world, and ones that
    throw [9]. *)
Definition counting_cleanup : nat -> Callback World Error :=
  fun _ h => Returned (with_graph (S (graph h)) h).
Definition throwing_cleanup : nat -> Callback World Error :=
  fun _ h => Thrown 9%nat h.

Definition quiet_host : Host World Error := mkHost counting_cleanup unchanged_poll.
Definition busy_host : Host World Error := mkHost counting_cleanup changed_poll.
Definition failing_host : Host World Error := mkHost throwing_cleanup changed_poll.

(** A schedule hook that only returns. *)
Definition idle_schedule : ReactiveNode -> Callback World Error :=
  fun _ h => Returned h.

(** [new Watch(() => { throw 7; }, schedule, false)] *)
Definition throwing_watch : Watch World Error :=
  mkWatch 1%nat (fun _ h => Thrown 7%nat h) idle_schedule false.

(** [new Watch((onCleanup) => { onCleanup(c5); }, schedule, false)] *)
Definition registering_watch : Watch World Error :=
  mkWatch 1%nat (fun onCleanup h => Returned (onCleanup (RegisteredCleanupFn 5) h))
    idle_schedule false.

(** [new Watch(() => {}, schedule, false)] *)
Definition plain_watch : Watch World Error :=
  mkWatch 1%nat (fun _ h => Returned h) idle_schedule false.

(** A watch that has run once and registered cleanup [5], met inside the
    tracked context of node [2]. *)
Definition after_one_run : Heap World :=
  mkHeap (Some 2%nat) false (RegisteredCleanupFn 5) 1 0%nat.

(** A schedule hook that throws [3]. *)
Definition failing_schedule : ReactiveNode -> Callback World Error :=
  fun _ h => Thrown 3%nat h.

(** [new Watch(() => {}, () => { throw 3; }, false)] *)
Definition unschedulable_watch : Watch World Error :=
  mkWatch 1%nat (fun _ h => Returned h) failing_schedule false.

(** [new Watch((onCleanup) => { onCleanup(c5); onCleanup(c6); }, schedule,
    false)] *)
Definition twice_registering_watch : Watch World Error :=
  mkWatch 1%nat
    (fun onCleanup h =>
       Returned (onCleanup (RegisteredCleanupFn 6)
                   (onCleanup (RegisteredCleanupFn 5) h)))
    idle_schedule false.

End Samples.

(* ================================================================= *)
(** ** [class ComponentNgElementStrategy implements NgElementStrategy] *)

(** The strategy that backs a custom element: it caches input values until
    the component exists, creates the component on [connect], forwards
    later input values to it, records them for [ngOnChanges], schedules one
    change detection for any number of changes, and schedules the
    destruction of the component on [disconnect].

    Everything the class reaches outside itself is a parameter ([Env]): the
    component behind the [ComponentRef] with its instance, its view and its
    change detectors, [strictEquals] and the scheduler of [./utils], and the
    factory.  The component is a value of an abstract type that these
    operations transform; they may throw, and they do not call back into
    the strategy.  Every call out is recorded, with the strategy as the
    callee found it. *)

Module Elements.

Definition string : Set := String.string.

(** [const DESTROY_DELAY = 10;] *)
Definition DESTROY_DELAY : N := 10.

(* ----------------------------------------------------------------- *)
(** *** Maps and sets keyed by property name *)

Section Keyed.
Context {A : Type}.

(** [Map.prototype.get], and the own properties of a plain object. *)
Fixpoint assoc_get (p : string) (m : list (string * A)) : option A :=
  match m with
  | [] => None
  | (q, a) :: m' => if String.eqb p q then Some a else assoc_get p m'
  end.

(** [Map.prototype.has] *)
Definition assoc_has (p : string) (m : list (string * A)) : bool :=
  match assoc_get p m with Some _ => true | None => false end.

(** [Map.prototype.set], and assignment to a property of a plain object:
    an existing key keeps its place, a new key goes last. *)
Fixpoint assoc_set (p : string) (a : A) (m : list (string * A)) : list (string * A) :=
  match m with
  | [] => [(p, a)]
  | (q, b) :: m' =>
      if String.eqb p q then (q, a) :: m' else (q, b) :: assoc_set p a m'
  end.

End Keyed.

(** [Set.prototype.has] *)
Definition set_has (p : string) (s : list string) : bool :=
  existsb (String.eqb p) s.

(** [Set.prototype.delete] *)
Definition set_delete (p : string) (s : list string) : list string :=
  filter (fun q => negb (String.eqb p q)) s.

(** [new Set<string>(names)] *)
Definition set_of (names : list string) : list string :=
  nodup String.string_dec names.

(* ----------------------------------------------------------------- *)
(** *** State *)

Section Strategy.

(** [Value] is [any]; [Component] is the component behind a
    [ComponentRef], with all its state; [CdRef] is a [ChangeDetectorRef];
    [Element] is an [HTMLElement]; [Exn] is the type of thrown values. *)
Context {Value Component CdRef Element Exn : Type}.

(** [new SimpleChange(previousValue, currentValue, firstChange)] *)
Record SimpleChange : Type := mkSimpleChange {
  previousValue : Value;
  currentValue : Value;
  firstChange : bool
}.

(** [SimpleChanges]: the own properties of the object, in insertion
    order. *)
Definition SimpleChanges : Type := list (string * SimpleChange).

(** The functions the scheduler hands back, by what they cancel. *)
Inductive CancelFn : Type :=
| CancelChangeDetection
| CancelDestroy.

(** The fields of the instance. *)
Record Strategy : Type := mkStrategy {
  componentRef : option Component;
  viewChangeDetectorRef : option CdRef;
  inputChanges : option SimpleChanges;
  hasInputChanges : bool;
  implementsOnChanges : bool;
  scheduledChangeDetectionFn : option CancelFn;
  scheduledDestroyFn : option CancelFn;
  initialInputValues : list (string * Value);
  unchangedInputs : list string
}.

Definition with_componentRef (c : option Component) (s : Strategy) : Strategy :=
  mkStrategy c (viewChangeDetectorRef s) (inputChanges s) (hasInputChanges s)
    (implementsOnChanges s) (scheduledChangeDetectionFn s) (scheduledDestroyFn s)
    (initialInputValues s) (unchangedInputs s).

Definition with_viewChangeDetectorRef (v : option CdRef) (s : Strategy) : Strategy :=
  mkStrategy (componentRef s) v (inputChanges s) (hasInputChanges s)
    (implementsOnChanges s) (scheduledChangeDetectionFn s) (scheduledDestroyFn s)
    (initialInputValues s) (unchangedInputs s).

Definition with_inputChanges (cs : option SimpleChanges) (s : Strategy) : Strategy :=
  mkStrategy (componentRef s) (viewChangeDetectorRef s) cs (hasInputChanges s)
    (implementsOnChanges s) (scheduledChangeDetectionFn s) (scheduledDestroyFn s)
    (initialInputValues s) (unchangedInputs s).

Definition with_hasInputChanges (b : bool) (s : Strategy) : Strategy :=
  mkStrategy (componentRef s) (viewChangeDetectorRef s) (inputChanges s) b
    (implementsOnChanges s) (scheduledChangeDetectionFn s) (scheduledDestroyFn s)
    (initialInputValues s) (unchangedInputs s).

Definition with_implementsOnChanges (b : bool) (s : Strategy) : Strategy :=
  mkStrategy (componentRef s) (viewChangeDetectorRef s) (inputChanges s)
    (hasInputChanges s) b (scheduledChangeDetectionFn s) (scheduledDestroyFn s)
    (initialInputValues s) (unchangedInputs s).

Definition with_scheduledChangeDetectionFn (f : option CancelFn) (s : Strategy) : Strategy :=
  mkStrategy (componentRef s) (viewChangeDetectorRef s) (inputChanges s)
    (hasInputChanges s) (implementsOnChanges s) f (scheduledDestroyFn s)
    (initialInputValues s) (unchangedInputs s).

Definition with_scheduledDestroyFn (f : option CancelFn) (s : Strategy) : Strategy :=
  mkStrategy (componentRef s) (viewChangeDetectorRef s) (inputChanges s)
    (hasInputChanges s) (implementsOnChanges s) (scheduledChangeDetectionFn s) f
    (initialInputValues s) (unchangedInputs s).

Definition with_initialInputValues (m : list (string * Value)) (s : Strategy) : Strategy :=
  mkStrategy (componentRef s) (viewChangeDetectorRef s) (inputChanges s)
    (hasInputChanges s) (implementsOnChanges s) (scheduledChangeDetectionFn s)
    (scheduledDestroyFn s) m (unchangedInputs s).

Definition with_unchangedInputs (u : list string) (s : Strategy) : Strategy :=
  mkStrategy (componentRef s) (viewChangeDetectorRef s) (inputChanges s)
    (hasInputChanges s) (implementsOnChanges s) (scheduledChangeDetectionFn s)
    (scheduledDestroyFn s) (initialInputValues s) u.

(* ----------------------------------------------------------------- *)
(** *** The world outside the class *)

(** What an operation of the component does: it returns or throws, and
    leaves the component in some state. *)
Inductive Reply : Type :=
| Done (c : Component)
| Failed (e : Exn) (c : Component).

(** What an operation that produces a value does. *)
Inductive Answer (A : Type) : Type :=
| Got (a : A)
| Raised (e : Exn).

Record Env : Type := mkEnv {
  (** the value [undefined], and the test [value === undefined] *)
  undefined : Value;
  is_undefined : Value -> bool;
  (** [strictEquals] of [./utils] *)
  strictEquals : Value -> Value -> bool;
  (** the names every plain object answers to through its prototype
      ([toString], [constructor], ...): looked up on [{}] they give an
      inherited member, which is truthy *)
  inherited : string -> bool;
  (** what dereferencing [null] throws *)
  type_error : Exn;
  (** [componentFactory.inputs.map(({propName}) => propName)] *)
  inputs : list string;
  (** [Injector.create], [extractProjectableNodes] and
      [componentFactory.create(childInjector, projectableNodes, element)] *)
  create : Element -> Answer Component;
  (** [componentRef.injector.get(ChangeDetectorRef)] *)
  view_change_detector : Component -> Answer CdRef;
  (** [isFunction((componentRef.instance as OnChanges).ngOnChanges)] *)
  has_ngOnChanges : Component -> bool;
  (** [componentRef.instance[property]] *)
  get_property : Component -> string -> Value;
  (** [componentRef.instance[property] = value] *)
  set_property : string -> Value -> Component -> Reply;
  (** [(componentRef.instance as OnChanges).ngOnChanges(inputChanges)] *)
  ngOnChanges : SimpleChanges -> Component -> Reply;
  (** [viewChangeDetectorRef.markForCheck()] *)
  markForCheck : CdRef -> Component -> Reply;
  (** [componentRef.changeDetectorRef.detectChanges()] *)
  changeDetectorRef_detectChanges : Component -> Reply;
  (** the body of [initializeOutputs]: reading the emitters off the
      instance, piping them and [eventEmitters.next(...)] *)
  connect_outputs : Component -> Reply;
  (** [this.injector.get(ApplicationRef).attachView(componentRef.hostView)] *)
  attachView : Component -> Reply;
  (** [componentRef.destroy()] *)
  destroy : Component -> Reply
}.

(** The calls out of the class. *)
Inductive Op : Type :=
| Create
| GetViewChangeDetector
| SetProperty (property : string) (value : Value)
| NgOnChanges (changes : SimpleChanges)
| MarkForCheck
| DetectChanges
| ConnectOutputs
| AttachView
| Destroy
| ScheduleBeforeRender
| Schedule (delay : N)
| Cancel (f : CancelFn).

Record Event : Type := mkEvent {
  op : Op;
  entry : Strategy
}.

(* ----------------------------------------------------------------- *)
(** *** The method monad *)

Record Result (A : Type) : Type := mkResult {
  completion : Completion Exn A;
  after : Strategy;
  events : list Event
}.

Definition Action (A : Type) : Type := Strategy -> Result A.

Definition done {A} (a : A) : Action A :=
  fun s => mkResult A (Normal a) s [].

Definition throw {A} (e : Exn) : Action A :=
  fun s => mkResult A (Throw e) s [].

Definition seq {A B} (m : Action A) (k : A -> Action B) : Action B :=
  fun s =>
    match m s with
    | mkResult _ (Normal a) s1 es1 =>
        match k a s1 with
        | mkResult _ c s2 es2 => mkResult B c s2 (es1 ++ es2)
        end
    | mkResult _ (Throw e) s1 es1 => mkResult B (Throw e) s1 es1
    end.

Definition get {A} (field : Strategy -> A) : Action A :=
  fun s => mkResult A (Normal (field s)) s [].

Definition set (upd : Strategy -> Strategy) : Action unit :=
  fun s => mkResult unit (Normal tt) (upd s) [].

(** A call to the scheduler, which only takes note. *)
Definition emit (o : Op) : Action unit :=
  fun s => mkResult unit (Normal tt) s [mkEvent o s].

(** A call to an operation of the component held in [this.componentRef];
    on [null] the member access throws. *)
Definition on_component (env : Env) (o : Op) (f : Component -> Reply) : Action unit :=
  fun s =>
    match componentRef s with
    | None => mkResult unit (Throw (type_error env)) s []
    | Some c =>
        match f c with
        | Done c' =>
            mkResult unit (Normal tt) (with_componentRef (Some c') s) [mkEvent o s]
        | Failed e c' =>
            mkResult unit (Throw e) (with_componentRef (Some c') s) [mkEvent o s]
        end
    end.

(** A call that produces a value. *)
Definition ask {A} (o : Op) (a : Answer A) : Action A :=
  fun s =>
    match a with
    | Got _ x => mkResult A (Normal x) s [mkEvent o s]
    | Raised _ e => mkResult A (Throw e) s [mkEvent o s]
    end.

End Strategy.

Arguments SimpleChange : clear implicits.
Arguments SimpleChanges : clear implicits.
Arguments Strategy : clear implicits.
Arguments Reply : clear implicits.
Arguments Answer : clear implicits.
Arguments Env : clear implicits.
Arguments Op : clear implicits.
Arguments Event : clear implicits.
Arguments Result : clear implicits.
Arguments Action : clear implicits.
Arguments Got {Exn A} a.
Arguments Raised {Exn A} e.
Arguments completion {Value Component CdRef Exn A} r.
Arguments after {Value Component CdRef Exn A} r.
Arguments events {Value Component CdRef Exn A} r.

Declare Scope action_scope.
Delimit Scope action_scope with action.
Notation "x <- m ;; k" := (seq m (fun x => k))
  (at level 61, m at next level, right associativity) : action_scope.
Notation "m ;; k" := (seq m (fun _ => k))
  (at level 61, right associativity) : action_scope.

(* ----------------------------------------------------------------- *)
(** *** The methods *)

Section Methods.
Context {Value Component CdRef Element Exn : Type}.
Variable env : Env Value Component CdRef Element Exn.

Local Open Scope action_scope.

Local Abbreviation Act := (Action Value Component CdRef Exn).

(** The state the constructor leaves:
<<
    this.unchangedInputs =
        new Set<string>(this.componentFactory.inputs.map(({propName}) => propName));
>>
    and the field initialisers for the rest. *)
Definition constructor : Strategy Value Component CdRef :=
  mkStrategy None None None false false None None [] (set_of (inputs env)).

(**
<<
  private runInZone(fn: () => unknown) {
    return (this.elementZone && Zone.current !== this.elementZone) ? this.ngZone.run(fn) : fn();
  }
>>
    Either way [fn] is run, once and at once, and its result is the result
    of the call. *)
Definition runInZone {A} (fn : Act A) : Act A := fn.

(**
<<
  getInputValue(property: string): any {
    return this.runInZone(() => {
      if (this.componentRef === null) {
        return this.initialInputValues.get(property);
      }

      return this.componentRef.instance[property];
    });
  }
>> *)
Definition getInputValue (property : string) : Act Value :=
  runInZone
    (c <- get componentRef ;;
     match c with
     | None =>
         m <- get initialInputValues ;;
         done (match assoc_get property m with
               | Some v => v
               | None => undefined env
               end)
     | Some c => done (get_property env c property)
     end).

(** [this.inputChanges[property]] on the plain object [inputChanges]: an
    own property, or else a member inherited from the prototype, or else
    [undefined]. *)
Inductive Member : Type :=
| Own (change : SimpleChange Value)
| Inherited
| Absent.

Definition member (changes : SimpleChanges Value) (property : string) : Member :=
  match assoc_get property changes with
  | Some change => Own change
  | None => if inherited env property then Inherited else Absent
  end.

(**
<<
  protected recordInputChange(property: string, currentValue: any): void {
    // Do not record the change if the component does not implement `OnChanges`.
    if (!this.implementsOnChanges) {
      return;
    }

    if (this.inputChanges === null) {
      this.inputChanges = {};
    }

    // If there already is a change, modify the current value to match but leave the values for
    // `previousValue` and `isFirstChange`.
    const pendingChange = this.inputChanges[property];
    if (pendingChange) {
      pendingChange.currentValue = currentValue;
      return;
    }

    const isFirstChange = this.unchangedInputs.has(property);
    const previousValue = isFirstChange ? undefined : this.getInputValue(property);
    this.inputChanges[property] = new SimpleChange(previousValue, currentValue, isFirstChange);
  }
>>
    An inherited member is an object, hence truthy: the assignment to its
    [currentValue] lands on the prototype's member and the strategy keeps no
    trace of it. *)
Definition recordInputChange (property : string) (value : Value) : Act unit :=
  implements <- get implementsOnChanges ;;
  if negb implements then done tt
  else
    pending <- get inputChanges ;;
    (match pending with
     | None => set (with_inputChanges (Some []))
     | Some _ => done tt
     end) ;;
    pending <- get inputChanges ;;
    let changes := match pending with Some cs => cs | None => [] end in
    match member changes property with
    | Own pendingChange =>
        set (with_inputChanges
               (Some (assoc_set property
                        (mkSimpleChange (previousValue pendingChange) value
                           (firstChange pendingChange))
                        changes)))
    | Inherited => done tt
    | Absent =>
        unchanged <- get unchangedInputs ;;
        let isFirstChange := set_has property unchanged in
        previous <- (if isFirstChange then done (undefined env)
                     else getInputValue property) ;;
        set (with_inputChanges
               (Some (assoc_set property
                        (mkSimpleChange previous value isFirstChange)
                        changes)))
    end.

(**
<<
  protected callNgOnChanges(componentRef: ComponentRef<any>): void {
    if (!this.implementsOnChanges || this.inputChanges === null) {
      return;
    }

    // Cache the changes and set inputChanges to null to capture any changes that might occur
    // during ngOnChanges.
    const inputChanges = this.inputChanges;
    this.inputChanges = null;
    (componentRef.instance as OnChanges).ngOnChanges(inputChanges);
  }
>> *)
Definition callNgOnChanges : Act unit :=
  implements <- get implementsOnChanges ;;
  pending <- get inputChanges ;;
  match implements, pending with
  | true, Some changes =>
      set (with_inputChanges None) ;;
      on_component env (NgOnChanges changes) (ngOnChanges env changes)
  | _, _ => done tt
  end.

(**
<<
  protected markViewForCheck(viewChangeDetectorRef: ChangeDetectorRef): void {
    if (this.hasInputChanges) {
      this.hasInputChanges = false;
      viewChangeDetectorRef.markForCheck();
    }
  }
>> *)
Definition markViewForCheck (viewChangeDetectorRef : option CdRef) : Act unit :=
  changed <- get hasInputChanges ;;
  if changed then
    set (with_hasInputChanges false) ;;
    match viewChangeDetectorRef with
    | None => throw (type_error env)
    | Some v => on_component env MarkForCheck (markForCheck env v)
    end
  else done tt.

(**
<<
  protected detectChanges(): void {
    if (this.componentRef === null) {
      return;
    }

    this.callNgOnChanges(this.componentRef);
    this.markViewForCheck(this.viewChangeDetectorRef!);
    this.componentRef.changeDetectorRef.detectChanges();
  }
>> *)
Definition detectChanges : Act unit :=
  c <- get componentRef ;;
  match c with
  | None => done tt
  | Some _ =>
      callNgOnChanges ;;
      v <- get viewChangeDetectorRef ;;
      markViewForCheck v ;;
      on_component env DetectChanges (changeDetectorRef_detectChanges env)
  end.


(**
<<
  protected scheduleDetectChanges(): void {
    if (this.scheduledChangeDetectionFn) {
      return;
    }

    this.scheduledChangeDetectionFn = scheduler.scheduleBeforeRender(() => { ... });
  }
>> *)
Definition scheduleDetectChanges : Act unit :=
  scheduled <- get scheduledChangeDetectionFn ;;
  match scheduled with
  | Some _ => done tt
  | None =>
      emit ScheduleBeforeRender ;;
      set (with_scheduledChangeDetectionFn (Some CancelChangeDetection))
  end.

(**
<<
  setInputValue(property: string, value: any): void {
    this.runInZone(() => {
      if (this.componentRef === null) {
        this.initialInputValues.set(property, value);
        return;
      }

      // Ignore the value if it is strictly equal to the current value, except if it is `undefined`
      // and this is the first change to the value (because an explicit `undefined` _is_ strictly
      // equal to not having a value set at all, but we still need to record this as a change).
      if (strictEquals(value, this.getInputValue(property)) &&
          !((value === undefined) && this.unchangedInputs.has(property))) {
        return;
      }

      // Record the changed value and update internal state to reflect the fact that this input has
      // changed.
      this.recordInputChange(property, value);
      this.unchangedInputs.delete(property);
      this.hasInputChanges = true;

      // Update the component instance and schedule change detection.
      this.componentRef.instance[property] = value;
      this.scheduleDetectChanges();
    });
  }
>> *)
Definition setInputValue (property : string) (value : Value) : Act unit :=
  runInZone
    (c <- get componentRef ;;
     match c with
     | None =>
         set (fun s =>
                with_initialInputValues
                  (assoc_set property value (initialInputValues s)) s)
     | Some _ =>
         current <- getInputValue property ;;
         unchanged <- get unchangedInputs ;;
         if strictEquals env value current
            && negb (is_undefined env value && set_has property unchanged)
         then done tt
         else
           recordInputChange property value ;;
           set (fun s => with_unchangedInputs
                           (set_delete property (unchangedInputs s)) s) ;;
           set (with_hasInputChanges true) ;;
           on_component env (SetProperty property value)
             (set_property env property value) ;;
           scheduleDetectChanges
     end).

(** [array.forEach(f)] *)
Fixpoint forEach {A} (f : A -> Act unit) (l : list A) : Act unit :=
  match l with
  | [] => done tt
  | a :: l' => f a ;; forEach f l'
  end.

(**
<<
  protected initializeInputs(): void {
    this.componentFactory.inputs.forEach(({propName}) => {
      if (this.initialInputValues.has(propName)) {
        // Call `setInputValue()` now that the component has been instantiated to update its
        // properties and fire `ngOnChanges()`.
        this.setInputValue(propName, this.initialInputValues.get(propName));
      }
    });

    this.initialInputValues.clear();
  }
>> *)
Definition initializeInputs : Act unit :=
  forEach
    (fun propName =>
       m <- get initialInputValues ;;
       match assoc_get propName m with
       | Some v => setInputValue propName v
       | None => done tt
       end)
    (inputs env) ;;
  set (with_initialInputValues []).

(** [initializeOutputs(componentRef)] *)
Definition initializeOutputs : Act unit :=
  on_component env ConnectOutputs (connect_outputs env).

(**
<<
  protected initializeComponent(element: HTMLElement) {
    const childInjector = Injector.create({providers: [], parent: this.injector});
    const projectableNodes =
        extractProjectableNodes(element, this.componentFactory.ngContentSelectors);
    this.componentRef = this.componentFactory.create(childInjector, projectableNodes, element);
    this.viewChangeDetectorRef = this.componentRef.injector.get(ChangeDetectorRef);

    this.implementsOnChanges = isFunction((this.componentRef.instance as OnChanges).ngOnChanges);

    this.initializeInputs();
    this.initializeOutputs(this.componentRef);

    this.detectChanges();

    const applicationRef = this.injector.get<ApplicationRef>(ApplicationRef);
    applicationRef.attachView(this.componentRef.hostView);
  }
>> *)
Definition initializeComponent (element : Element) : Act unit :=
  c <- ask Create (create env element) ;;
  set (with_componentRef (Some c)) ;;
  v <- ask GetViewChangeDetector (view_change_detector env c) ;;
  set (with_viewChangeDetectorRef (Some v)) ;;
  set (with_implementsOnChanges (has_ngOnChanges env c)) ;;
  initializeInputs ;;
  initializeOutputs ;;
  detectChanges ;;
  on_component env AttachView (attachView env).

(**
<<
  connect(element: HTMLElement) {
    this.runInZone(() => {
      // If the element is marked to be destroyed, cancel the task since the component was
      // reconnected
      if (this.scheduledDestroyFn !== null) {
        this.scheduledDestroyFn();
        this.scheduledDestroyFn = null;
        return;
      }

      if (this.componentRef === null) {
        this.initializeComponent(element);
      }
    });
  }
>> *)
Definition connect (element : Element) : Act unit :=
  runInZone
    (scheduled <- get scheduledDestroyFn ;;
     match scheduled with
     | Some cancel =>
         emit (Cancel cancel) ;;
         set (with_scheduledDestroyFn None)
     | None =>
         c <- get componentRef ;;
         match c with
         | None => initializeComponent element
         | Some _ => done tt
         end
     end).

(** The task handed to [scheduler.schedule] by [disconnect]:
<<
    () => {
      if (this.componentRef !== null) {
        this.componentRef.destroy();
        this.componentRef = null;
        this.viewChangeDetectorRef = null;
      }
    }
>> *)
Definition scheduled_destroy : Act unit :=
  c <- get componentRef ;;
  match c with
  | Some _ =>
      on_component env Destroy (destroy env) ;;
      set (with_componentRef None) ;;
      set (with_viewChangeDetectorRef None)
  | None => done tt
  end.

(**
<<
  disconnect() {
    this.runInZone(() => {
      // Return if there is no componentRef or the component is already scheduled for destruction
      if (this.componentRef === null || this.scheduledDestroyFn !== null) {
        return;
      }

      // Schedule the component to be destroyed after a small timeout in case it is being
      // moved elsewhere in the DOM
      this.scheduledDestroyFn = scheduler.schedule(() => { ... }, DESTROY_DELAY);
    });
  }
>> *)
Definition disconnect : Act unit :=
  runInZone
    (c <- get componentRef ;;
     scheduled <- get scheduledDestroyFn ;;
     match c, scheduled with
     | Some _, None =>
         emit (Schedule DESTROY_DELAY) ;;
         set (with_scheduledDestroyFn (Some CancelDestroy))
     | _, _ => done tt
     end).

(** A row of [setInputValue] calls. *)
Definition setInputValues (l : list (string * Value)) : Act unit :=
  forEach (fun pv => setInputValue (fst pv) (snd pv)) l.

(** The operations of one kind among the recorded calls. *)
Definition count_op (is_op : Op Value -> bool)
    (es : list (Event Value Component CdRef)) : nat :=
  length (filter (fun e => is_op (op e)) es).

Definition is_ScheduleBeforeRender (o : Op Value) : bool :=
  match o with ScheduleBeforeRender => true | _ => false end.

Definition ops (es : list (Event Value Component CdRef)) : list (Op Value) :=
  map op es.

End Methods.

(* ----------------------------------------------------------------- *)
(** *** Vocabulary for the statements, and a sample component *)

Section Vocabulary.
Context {Value Component CdRef Element Exn : Type}.
Variable env : Env Value Component CdRef Element Exn.

(** What [getInputValue(property)] answers in state [s]. *)
Definition input_value (s : Strategy Value Component CdRef) (property : string) : Value :=
  match componentRef s with
  | None =>
      match assoc_get property (initialInputValues s) with
      | Some v => v
      | None => undefined env
      end
  | Some c => get_property env c property
  end.

(** [setInputValue(property, value)] ignores the value in state [s]: the
    condition of its second [if]. *)
Definition ignored (s : Strategy Value Component CdRef)
    (property : string) (value : Value) : bool :=
  strictEquals env value (input_value s property)
  && negb (is_undefined env value && set_has property (unchangedInputs s)).

(** The change pending for a property, if any. *)
Definition pending_change (s : Strategy Value Component CdRef) (property : string)
  : option (SimpleChange Value) :=
  match inputChanges s with
  | Some changes => assoc_get property changes
  | None => None
  end.

(** What [recordInputChange(property, value)] leaves in [inputChanges]. *)
Definition recorded (s : Strategy Value Component CdRef)
    (property : string) (value : Value) : option (SimpleChanges Value) :=
  if implementsOnChanges s then
    let changes := match inputChanges s with Some cs => cs | None => [] end in
    match member env changes property with
    | Own pendingChange =>
        Some (assoc_set property
                (mkSimpleChange (previousValue pendingChange) value
                   (firstChange pendingChange))
                changes)
    | Inherited => Some changes
    | Absent =>
        let isFirstChange := set_has property (unchangedInputs s) in
        Some (assoc_set property
                (mkSimpleChange
                   (if isFirstChange then undefined env else input_value s property)
                   value isFirstChange)
                changes)
    end
  else inputChanges s.

(** The state [setInputValue(property, value)] has reached when it writes
    the property of the instance. *)
Definition marked (s : Strategy Value Component CdRef)
    (property : string) (value : Value) : Strategy Value Component CdRef :=
  with_hasInputChanges true
    (with_unchangedInputs (set_delete property (unchangedInputs s))
       (with_inputChanges (recorded s property value) s)).

(** Whether a function is held in a field. *)
Definition held {A} (f : option A) : bool :=
  match f with Some _ => true | None => false end.

End Vocabulary.

End Elements.

(* ================================================================= *)
(** ** A sample custom element *)

Module ElementSamples.
Import Elements.
Import String.
Local Open Scope string_scope.
Local Open Scope list_scope.

(** The names of the inputs of the sample component, and a name that is
    no input of it but a member of every object. *)
Definition name_input : String.string := "name".
Definition size_input : String.string := "size".
Definition toString_member : String.string := "toString".

(** Values are [undefined], numbers and text; the component is the list of
    the properties set on its instance, a plain object with no accessors;
    errors are numbers. *)
Inductive JsValue : Type :=
| JsUndefined
| JsNumber (n : N)
| JsText (s : String.string).

Definition js_eqb (a b : JsValue) : bool :=
  match a, b with
  | JsUndefined, JsUndefined => true
  | JsNumber n, JsNumber m => N.eqb n m
  | JsText s, JsText t => String.eqb s t
  | _, _ => false
  end.

Definition Instance : Type := list (String.string * JsValue).

Definition read_instance (c : Instance) (p : String.string) : JsValue :=
  match assoc_get p c with Some v => v | None => JsUndefined end.

Definition on_prototype (p : String.string) : bool :=
  String.eqb p "toString" || String.eqb p "constructor".

(** A component with inputs [name] and [size] that implements
    [OnChanges]; none of its operations throws. *)
Definition greeter : Env JsValue Instance unit unit nat :=
  mkEnv JsUndefined
    (fun v => match v with JsUndefined => true | _ => false end)
    js_eqb on_prototype 0%nat [name_input; size_input]
    (fun _ => Got [])
    (fun _ => Got tt)
    (fun _ => true)
    read_instance
    (fun p v c => Done (assoc_set p v c))
    (fun _ c => Done c)
    (fun _ c => Done c)
    (fun c => Done c)
    (fun c => Done c)
    (fun c => Done c)
    (fun c => Done c).

(** The same component, but one that does not implement [OnChanges]. *)
Definition plain_greeter : Env JsValue Instance unit unit nat :=
  mkEnv JsUndefined
    (fun v => match v with JsUndefined => true | _ => false end)
    js_eqb on_prototype 0%nat [name_input; size_input]
    (fun _ => Got [])
    (fun _ => Got tt)
    (fun _ => false)
    read_instance
    (fun p v c => Done (assoc_set p v c))
    (fun _ c => Done c)
    (fun _ c => Done c)
    (fun c => Done c)
    (fun c => Done c)
    (fun c => Done c)
    (fun c => Done c).

(** A component whose creation throws [4]. *)
Definition broken_greeter : Env JsValue Instance unit unit nat :=
  mkEnv JsUndefined
    (fun v => match v with JsUndefined => true | _ => false end)
    js_eqb on_prototype 0%nat [name_input; size_input]
    (fun _ => Raised 4%nat)
    (fun _ => Got tt)
    (fun _ => true)
    read_instance
    (fun p v c => Done (assoc_set p v c))
    (fun _ c => Done c)
    (fun _ c => Done c)
    (fun c => Done c)
    (fun c => Done c)
    (fun c => Done c)
    (fun c => Done c).

(** The strategy of a connected element whose component exists, with
    nothing pending. *)
Definition connected : Strategy JsValue Instance unit :=
  mkStrategy (Some []) (Some tt) None false true None None []
    [name_input; size_input].

(** A component whose [name] and [size] cannot be written: the setters
    throw [8]. *)
Definition readonly_greeter : Env JsValue Instance unit unit nat :=
  mkEnv JsUndefined
    (fun v => match v with JsUndefined => true | _ => false end)
    js_eqb on_prototype 0%nat [name_input; size_input]
    (fun _ => Got [])
    (fun _ => Got tt)
    (fun _ => true)
    read_instance
    (fun _ _ c => Failed 8%nat c)
    (fun _ c => Done c)
    (fun _ c => Done c)
    (fun c => Done c)
    (fun c => Done c)
    (fun c => Done c)
    (fun c => Done c).

(** [connected] after change detection has delivered [name = 1]. *)
Definition named : Strategy JsValue Instance unit :=
  mkStrategy (Some [(name_input, JsNumber 1)]) (Some tt) None false true
    None None [] [size_input].

(** [connected] after [setInputValue("name", 1)], before the scheduled
    change detection has run. *)
Definition pending_named : Strategy JsValue Instance unit :=
  mkStrategy (Some [(name_input, JsNumber 1)]) (Some tt)
    (Some [(name_input, mkSimpleChange JsUndefined (JsNumber 1) true)])
    true true (Some CancelChangeDetection) None [] [size_input].

(** The strategy of a connected element whose component does not
    implement [OnChanges]. *)
Definition plain_connected : Strategy JsValue Instance unit :=
  mkStrategy (Some []) (Some tt) None false false None None []
    [name_input; size_input].

(** The strategy inside [initializeComponent], as [initializeInputs] finds
    it: the component is there, and values were cached for [name] and for
    [toString], which is no input. *)
Definition just_created : Strategy JsValue Instance unit :=
  mkStrategy (Some []) (Some tt) None false true None None
    [(name_input, JsNumber 1); (toString_member, JsNumber 3)]
    [name_input; size_input].

End ElementSamples.

(* ================================================================= *)
(** ** How [notify], [cleanup] and [run] unfold *)

Section Unfolding.
Context {Graph Exn : Type}.
Variable host : Host Graph Exn.
Variable w : Watch Graph Exn.

Ltac unfold_method :=
  unfold run, notify, cleanup, call_cleanupFn, call_watch, call_schedule,
    call_consumerPollProducersForChange, and_then, ReactiveGraph.setActiveConsumer,
    try_finally, bind, ret, read, write, invoke; cbn.

Lemma passes_guard_dec (h : Heap Graph) :
  {passes_guard host w h} + {trackingVersion h <> 0 /\ fst (polled host w h) = false}.
Proof.
  unfold passes_guard.
  destruct (N.eq_dec (trackingVersion h) 0) as [E | E]; [left; now left |].
  destruct (fst (polled host w h)); [left; now right | right; now split].
Qed.

(** The guard holds the call back: only polling happened. *)
Lemma run_short_circuit (h : Heap Graph) :
  trackingVersion h <> 0 ->
  fst (polled host w h) = false ->
  run host w h =
    mkExec _ (Normal tt)
      (with_graph (snd (polled host w h)) (with_dirty false h))
      [CallPoll (with_dirty false h)].
Proof.
  intros Hv Hp. apply N.eqb_neq in Hv.
  unfold polled in *. unfold_method. rewrite Hv. cbn.
  destruct (consumerPollProducersForChange host (this w) (with_dirty false h))
    as [changed g]; cbn in *; subst changed; reflexivity.
Qed.

(** The guard lets the call through and the pending cleanup throws. *)
Lemma run_cleanup_throws (h hc : Heap Graph) (e : Exn) :
  passes_guard host w h ->
  apply_cleanupFn host (cleanupFn h) (try_entry host w h) = Thrown e hc ->
  run host w h =
    mkExec _ (Throw e)
      (with_activeConsumer (activeConsumer h) hc)
      (guard_calls h ++ [CallCleanupFn (cleanupFn h) (try_entry host w h)]).
Proof.
  intros Hg Hc. unfold passes_guard, polled, try_entry, guard_calls in *.
  unfold_method.
  destruct (trackingVersion h =? 0) eqn:Hv; cbn in *.
  - unfold with_trackingVersion, with_activeConsumer, with_dirty; cbn.
    rewrite Hc; reflexivity.
  - apply N.eqb_neq in Hv. destruct Hg as [Hg | Hg]; [contradiction |].
    unfold polled in *.
    destruct (consumerPollProducersForChange host (this w) (with_dirty false h))
      as [changed g]; cbn in *; subst changed; cbn.
    unfold with_trackingVersion, with_activeConsumer, with_dirty, with_graph; cbn.
    rewrite Hc; reflexivity.
Qed.

(** The guard lets the call through and the pending cleanup returns: the
    watch function is entered, and its outcome is the outcome of [run], but
    for the register. *)
Lemma run_cleanup_returns (h hc : Heap Graph) :
  passes_guard host w h ->
  apply_cleanupFn host (cleanupFn h) (try_entry host w h) = Returned hc ->
  let hw := with_cleanupFn NOOP_CLEANUP_FN hc in
  run host w h =
    mkExec _
      match watch w registerOnCleanup hw with
      | Returned _ => Normal tt
      | Thrown e _ => Throw e
      end
      (with_activeConsumer (activeConsumer h)
         (outcome_heap (watch w registerOnCleanup hw)))
      (guard_calls h ++
         [CallCleanupFn (cleanupFn h) (try_entry host w h); CallWatch hw]).
Proof.
  intros Hg Hc. unfold passes_guard, polled, try_entry, guard_calls in *.
  unfold_method.
  destruct (trackingVersion h =? 0) eqn:Hv; cbn in *.
  - unfold with_trackingVersion, with_activeConsumer, with_dirty; cbn.
    rewrite Hc; cbn.
    destruct (watch w registerOnCleanup (with_cleanupFn NOOP_CLEANUP_FN hc));
      reflexivity.
  - apply N.eqb_neq in Hv. destruct Hg as [Hg | Hg]; [contradiction |].
    unfold polled in *.
    destruct (consumerPollProducersForChange host (this w) (with_dirty false h))
      as [changed g]; cbn in *; subst changed; cbn.
    unfold with_trackingVersion, with_activeConsumer, with_dirty, with_graph; cbn.
    rewrite Hc; cbn.
    destruct (watch w registerOnCleanup (with_cleanupFn NOOP_CLEANUP_FN hc));
      reflexivity.
Qed.

End Unfolding.

(* ================================================================= *)
(** ** Reading the record of calls backwards *)

Section Inversion.
Context {Graph Exn : Type}.
Variable host : Host Graph Exn.
Variable w : Watch Graph Exn.

Lemma guard_calls_only_poll (h : Heap Graph) (c : Call Graph) :
  In c (guard_calls h) -> c = CallPoll (with_dirty false h).
Proof.
  unfold guard_calls. destruct (trackingVersion h =? 0); cbn; [tauto |].
  intros [E | []]; now symmetry.
Qed.

Lemma cleanup_calls_guard (h : Heap Graph) :
  cleanup_calls (guard_calls h) = [].
Proof. unfold guard_calls. now destruct (trackingVersion h =? 0). Qed.

Lemma watch_calls_guard (h : Heap Graph) :
  watch_calls (guard_calls h) = [].
Proof. unfold guard_calls. now destruct (trackingVersion h =? 0). Qed.

(** A call of the pending cleanup is recorded only by a run that passed the
    guard; it is a call of the function held on entry, made in the heap the
    [try] block starts in. *)
Lemma run_cleanup_call_inv (h entry : Heap Graph) (f : WatchCleanupFn) :
  In (CallCleanupFn f entry) (calls (run host w h)) ->
  passes_guard host w h /\ f = cleanupFn h /\ entry = try_entry host w h.
Proof.
  destruct (passes_guard_dec host w h) as [Hg | [Hv Hp]].
  - destruct (apply_cleanupFn host (cleanupFn h) (try_entry host w h))
      as [hc | e hc] eqn:Hc.
    + rewrite (run_cleanup_returns host w h hc Hg Hc); cbn.
      intros Hin. apply in_app_or in Hin as [Hin | [Hin | [Hin | []]]].
      * apply guard_calls_only_poll in Hin; discriminate.
      * injection Hin as <- <-. now split.
      * discriminate.
    + rewrite (run_cleanup_throws host w h hc e Hg Hc); cbn.
      intros Hin. apply in_app_or in Hin as [Hin | [Hin | []]].
      * apply guard_calls_only_poll in Hin; discriminate.
      * injection Hin as <- <-. now split.
  - rewrite (run_short_circuit host w h Hv Hp); cbn.
    intros [Hin | []]; discriminate.
Qed.

(** A call of the watch function is recorded only by a run that passed the
    guard and whose pending cleanup returned; the watch function is entered
    in the heap the cleanup left, with [cleanupFn] reset. *)
Lemma run_watch_call_inv (h hw : Heap Graph) :
  In (CallWatch hw) (calls (run host w h)) ->
  passes_guard host w h /\
  exists hc,
    apply_cleanupFn host (cleanupFn h) (try_entry host w h) = Returned hc /\
    hw = with_cleanupFn NOOP_CLEANUP_FN hc.
Proof.
  destruct (passes_guard_dec host w h) as [Hg | [Hv Hp]].
  - destruct (apply_cleanupFn host (cleanupFn h) (try_entry host w h))
      as [hc | e hc] eqn:Hc.
    + rewrite (run_cleanup_returns host w h hc Hg Hc); cbn.
      intros Hin. apply in_app_or in Hin as [Hin | [Hin | [Hin | []]]].
      * apply guard_calls_only_poll in Hin; discriminate.
      * discriminate.
      * injection Hin as <-. split; [assumption | now exists hc].
    + rewrite (run_cleanup_throws host w h hc e Hg Hc); cbn.
      intros Hin. apply in_app_or in Hin as [Hin | [Hin | []]].
      * apply guard_calls_only_poll in Hin; discriminate.
      * discriminate.
  - rewrite (run_short_circuit host w h Hv Hp); cbn.
    intros [Hin | []]; discriminate.
Qed.

Lemma with_dirty_same (h : Heap Graph) (b : bool) :
  dirty h = b -> with_dirty b h = h.
Proof. destruct h; cbn; now intros ->. Qed.

(** [notify()] on a watch that is not dirty, whose schedule hook returns. *)
Lemma notify_clean (h h' : Heap Graph) :
  dirty h = false ->
  schedule w (this w) h = Returned h' ->
  notify (Exn := Exn) w h =
    mkExec _ (Normal tt) (with_dirty true h') [CallSchedule h].
Proof.
  intros Hd Hs.
  unfold notify, call_schedule, bind, read, write, invoke.
  rewrite Hd; cbn. rewrite Hs. reflexivity.
Qed.

(** [notify()] on a watch that is dirty. *)
Lemma notify_dirty (h : Heap Graph) :
  dirty h = true ->
  notify (Exn := Exn) w h = mkExec _ (Normal tt) h [].
Proof.
  intros Hd.
  unfold notify, call_schedule, bind, ret, read, write, invoke.
  rewrite Hd; cbn. now rewrite with_dirty_same.
Qed.

Lemma notify_times_dirty (n : nat) (h : Heap Graph) :
  dirty h = true ->
  notify_times (Exn := Exn) w n h = mkExec _ (Normal tt) h [].
Proof.
  intros Hd. induction n as [| n IH]; cbn.
  - reflexivity.
  - unfold bind. rewrite (notify_dirty h Hd), IH. reflexivity.
Qed.

(** [notify()] on a watch that is not dirty calls the schedule hook, and
    nothing else, whatever the hook does. *)
Lemma notify_clean_calls (h : Heap Graph) :
  dirty h = false ->
  calls (notify (Exn := Exn) w h) = [CallSchedule h].
Proof.
  intros Hd.
  unfold notify, call_schedule, bind, read, write, invoke.
  rewrite Hd; cbn. now destruct (schedule w (this w) h).
Qed.

(** The cleanup calls of one [run()]: the function held on entry, once, if
    the guard lets the call through, and none otherwise. *)
Lemma run_cleanup_calls_passed (h : Heap Graph) :
  passes_guard host w h ->
  cleanup_calls (calls (run host w h)) = [cleanupFn h].
Proof.
  intros Hg.
  destruct (apply_cleanupFn host (cleanupFn h) (try_entry host w h))
    as [hc | e hc] eqn:Hc.
  - rewrite (run_cleanup_returns host w h hc Hg Hc); cbn.
    unfold cleanup_calls. rewrite flat_map_app.
    fold (cleanup_calls (guard_calls h)). now rewrite cleanup_calls_guard.
  - rewrite (run_cleanup_throws host w h hc e Hg Hc); cbn.
    unfold cleanup_calls. rewrite flat_map_app.
    fold (cleanup_calls (guard_calls h)). now rewrite cleanup_calls_guard.
Qed.

Lemma run_cleanup_calls_held_back (h : Heap Graph) :
  trackingVersion h <> 0 ->
  fst (polled host w h) = false ->
  cleanup_calls (calls (run host w h)) = [] /\
  watch_calls (calls (run host w h)) = [].
Proof.
  intros Hv Hp. rewrite (run_short_circuit host w h Hv Hp). now split.
Qed.

(** The watch calls of a [run()] whose pending cleanup returned. *)
Lemma run_watch_calls_passed (h hc : Heap Graph) :
  passes_guard host w h ->
  apply_cleanupFn host (cleanupFn h) (try_entry host w h) = Returned hc ->
  watch_calls (calls (run host w h)) = [with_cleanupFn NOOP_CLEANUP_FN hc].
Proof.
  intros Hg Hc.
  rewrite (run_cleanup_returns host w h hc Hg Hc); cbn.
  unfold watch_calls. rewrite flat_map_app.
  fold (watch_calls (guard_calls h)). now rewrite watch_calls_guard.
Qed.

End Inversion.

(* ================================================================= *)
(** ** Properties of [Watch] *)

(** C1.  If the watch function is entered during [run()] and throws [e],
    then [run()] completes by throwing that same [e], and the
    active-consumer register holds what it held when [run()] was called,
    whatever that was and whatever the watch function did to it. *)
Theorem run_restores_consumer_when_watch_throws
    {Graph Exn : Type} (host : Host Graph Exn) (w : Watch Graph Exn)
    (h hw hw' : Heap Graph) (e : Exn) :
  In (CallWatch hw) (calls (run host w h)) ->
  watch w registerOnCleanup hw = Thrown e hw' ->
  completion (run host w h) = Throw e /\
  activeConsumer (heap (run host w h)) = activeConsumer h.
Proof.
  intros Hin Hthrow.
  apply run_watch_call_inv in Hin as (Hg & hc & Hc & ->).
  rewrite (run_cleanup_returns host w h hc Hg Hc); cbn.
  rewrite Hthrow; cbn. now split.
Qed.

Lemma run_restores_consumer_when_watch_throws_witness :
  completion (run Samples.busy_host Samples.throwing_watch Samples.after_one_run)
    = Throw 7%nat /\
  activeConsumer
    (heap (run Samples.busy_host Samples.throwing_watch Samples.after_one_run))
    = Some 2%nat.
Proof.
  apply (run_restores_consumer_when_watch_throws
           Samples.busy_host Samples.throwing_watch Samples.after_one_run
           (mkHeap (Some 1%nat) false NOOP_CLEANUP_FN 2 1%nat)
           (mkHeap (Some 1%nat) false NOOP_CLEANUP_FN 2 1%nat) 7%nat).
  - vm_compute. right; right; left; reflexivity.
  - reflexivity.
Defined.

(** C2.  On a watch that has run before (tracking version not 0), if
    polling the producers answers "no change", [run()] returns normally, has
    called neither the watch function nor the cleanup function, and leaves
    the dirty flag cleared. *)
Theorem run_short_circuits_when_nothing_changed
    {Graph Exn : Type} (host : Host Graph Exn) (w : Watch Graph Exn)
    (h : Heap Graph) (g : Graph) :
  trackingVersion h <> 0 ->
  consumerPollProducersForChange host (this w) (with_dirty false h) = (false, g) ->
  completion (run host w h) = Normal tt /\
  watch_calls (calls (run host w h)) = [] /\
  cleanup_calls (calls (run host w h)) = [] /\
  dirty (heap (run host w h)) = false /\
  heap (run host w h) = with_graph g (with_dirty false h).
Proof.
  intros Hv Hp.
  assert (Hf : fst (polled host w h) = false) by (unfold polled; now rewrite Hp).
  rewrite (run_short_circuit host w h Hv Hf); cbn.
  unfold polled; rewrite Hp; cbn. repeat split.
Qed.

Lemma run_short_circuits_when_nothing_changed_witness :
  completion (run Samples.quiet_host Samples.plain_watch Samples.after_one_run)
    = Normal tt /\
  watch_calls (calls (run Samples.quiet_host Samples.plain_watch Samples.after_one_run))
    = [] /\
  cleanup_calls (calls (run Samples.quiet_host Samples.plain_watch Samples.after_one_run))
    = [] /\
  dirty (heap (run Samples.quiet_host Samples.plain_watch Samples.after_one_run))
    = false /\
  heap (run Samples.quiet_host Samples.plain_watch Samples.after_one_run)
    = with_graph 0%nat (with_dirty false Samples.after_one_run).
Proof.
  apply (run_short_circuits_when_nothing_changed
           Samples.quiet_host Samples.plain_watch Samples.after_one_run 0%nat).
  - cbn. lia.
  - reflexivity.
Defined.

(** C3.  From a watch that is not dirty, any number [n + 1] of [notify()]
    calls in a row (no [run()] in between) calls the schedule hook exactly
    once, in the first of them, and leaves the watch dirty: the calls after
    the first make no call at all. *)
Theorem notify_schedules_once_per_dirty_period
    {Graph Exn : Type} (w : Watch Graph Exn)
    (h h' : Heap Graph) (n : nat) :
  dirty h = false ->
  schedule w (this w) h = Returned h' ->
  calls (notify w h) = [CallSchedule h] /\
  calls (notify_times w (S n) h) = [CallSchedule h] /\
  completion (notify_times w (S n) h) = Normal tt /\
  dirty (heap (notify_times w (S n) h)) = true /\
  calls (notify w (heap (notify_times w (S n) h))) = [].
Proof.
  intros Hd Hs.
  assert (Hn : notify_times w (S n) h =
               mkExec _ (Normal tt) (with_dirty true h') [CallSchedule h]).
  { cbn. unfold bind. rewrite (notify_clean w h h' Hd Hs).
    now rewrite (notify_times_dirty w n (with_dirty true h')). }
  rewrite Hn, (notify_clean w h h' Hd Hs); cbn [heap calls completion].
  rewrite (notify_dirty w (with_dirty true h')) by reflexivity.
  repeat split.
Qed.

Lemma notify_schedules_once_per_dirty_period_witness :
  let h := constructor (Graph := Samples.World) None 0%nat in
  calls (notify (Exn := Samples.Error) Samples.plain_watch h) = [CallSchedule h] /\
  calls (notify_times (Exn := Samples.Error) Samples.plain_watch 3 h)
    = [CallSchedule h] /\
  completion (notify_times Samples.plain_watch 3 h) = Normal tt /\
  dirty (heap (notify_times (Exn := Samples.Error) Samples.plain_watch 3 h)) = true /\
  calls (notify (Exn := Samples.Error) Samples.plain_watch
           (heap (notify_times (Exn := Samples.Error) Samples.plain_watch 3 h))) = [].
Proof.
  apply (notify_schedules_once_per_dirty_period Samples.plain_watch
           (constructor None 0%nat) (constructor None 0%nat) 2).
  - reflexivity.
  - reflexivity.
Defined.

(** C4.  The first [run()] of a freshly constructed watch calls the watch
    function, whether [notify()] came before it (dirty flag set) or not
    (dirty flag as constructed): it calls the no-op cleanup and then the
    watch function, both with the watch installed as active consumer and
    the tracking version at 1. *)
Theorem first_run_executes_watch
    {Graph Exn : Type} (host : Host Graph Exn) (w : Watch Graph Exn)
    (consumer : option ReactiveNode) (g : Graph) (d : bool) :
  let entry := mkHeap (Some (this w)) false NOOP_CLEANUP_FN 1 g in
  calls (run host w (with_dirty d (constructor consumer g)))
    = [CallCleanupFn NOOP_CLEANUP_FN entry; CallWatch entry] /\
  watch_calls (calls (run host w (constructor consumer g))) = [entry].
Proof.
  assert (Hrun : forall d',
    calls (run host w (with_dirty d' (constructor consumer g)))
    = [CallCleanupFn NOOP_CLEANUP_FN (mkHeap (Some (this w)) false NOOP_CLEANUP_FN 1 g);
       CallWatch (mkHeap (Some (this w)) false NOOP_CLEANUP_FN 1 g)]).
  { intros d'.
    rewrite (run_cleanup_returns host w (with_dirty d' (constructor consumer g))
               (mkHeap (Some (this w)) false NOOP_CLEANUP_FN 1 g)).
    - reflexivity.
    - now left.
    - reflexivity. }
  cbn zeta. split.
  - apply Hrun.
  - change (constructor consumer g) with (with_dirty false (constructor consumer g)).
    now rewrite Hrun.
Qed.

(** C5, as the code has it.  If the watch function throws during a run
    (and neither it nor the pending cleanup re-entered the watch), [run()]
    throws the same value, the tracking version is one more than before,
    and the dirty flag is cleared, not set.  The next [notify()] therefore
    calls the schedule hook again; a later [run()] polls first: it calls the
    watch function again if polling reports a change and the pending
    cleanup returns, and does not call it if polling reports none. *)
Theorem throwing_run_clears_dirty_and_keeps_version
    {Graph Exn : Type} (host : Host Graph Exn) (w : Watch Graph Exn)
    (h hw hw' : Heap Graph) (e : Exn) :
  In (CallWatch hw) (calls (run host w h)) ->
  watch w registerOnCleanup hw = Thrown e hw' ->
  leaves_watch_alone (try_entry host w h) hw ->
  leaves_watch_alone hw hw' ->
  completion (run host w h) = Throw e /\
  trackingVersion (heap (run host w h)) = trackingVersion h + 1 /\
  dirty (heap (run host w h)) = false /\
  calls (notify w (heap (run host w h))) = [CallSchedule (heap (run host w h))] /\
  forall h2 : Heap Graph,
    trackingVersion h2 = trackingVersion (heap (run host w h)) ->
    (fst (polled host w h2) = false ->
       watch_calls (calls (run host w h2)) = []) /\
    (fst (polled host w h2) = true ->
       forall hc, apply_cleanupFn host (cleanupFn h2) (try_entry host w h2) = Returned hc ->
       watch_calls (calls (run host w h2)) = [with_cleanupFn NOOP_CLEANUP_FN hc]).
Proof.
  intros Hin Hthrow [Hd1 Hv1] [Hd2 Hv2].
  apply run_watch_call_inv in Hin as (Hg & hc & Hc & ->).
  rewrite (run_cleanup_returns host w h hc Hg Hc).
  cbn [completion heap calls]. rewrite Hthrow. cbn [outcome_heap].
  assert (Hv : trackingVersion (with_activeConsumer (activeConsumer h) hw')
               = trackingVersion h + 1).
  { cbn. rewrite Hv2, Hv1. reflexivity. }
  assert (Hd : dirty (with_activeConsumer (activeConsumer h) hw') = false).
  { cbn. rewrite Hd2, Hd1. reflexivity. }
  split; [reflexivity |]. split; [exact Hv |]. split; [exact Hd |].
  split; [now apply notify_clean_calls |].
  intros h2 Hv2'. split.
  - intros Hp. apply run_cleanup_calls_held_back; [| assumption].
    rewrite Hv2', Hv. lia.
  - intros Hp hc' Hc'. apply run_watch_calls_passed; [now right | assumption].
Qed.

Lemma throwing_run_clears_dirty_and_keeps_version_witness :
  let r := run Samples.busy_host Samples.throwing_watch
             (with_dirty true (constructor (Some 2%nat) 0%nat)) in
  completion r = Throw 7%nat /\
  trackingVersion (heap r) = 1 /\
  dirty (heap r) = false.
Proof.
  pose proof (throwing_run_clears_dirty_and_keeps_version
                Samples.busy_host Samples.throwing_watch
                (with_dirty true (constructor (Some 2%nat) 0%nat))
                (mkHeap (Some 1%nat) false NOOP_CLEANUP_FN 1 0%nat)
                (mkHeap (Some 1%nat) false NOOP_CLEANUP_FN 1 0%nat) 7%nat) as T.
  destruct T as (Hc & Hv & Hd & _).
  - vm_compute. right; left; reflexivity.
  - reflexivity.
  - split; reflexivity.
  - split; reflexivity.
  - cbn zeta. repeat split; assumption.
Defined.

(** C5, as stated, fails: a watch made dirty by [notify()] whose watch
    function throws on its first run is left with the dirty flag cleared;
    and with producers that did not change, the [notify()] and [run()] that
    follow do not call the watch function again. *)
Lemma throwing_run_leaves_dirty_counterexample :
  let dirty_fresh :=
    with_dirty true (constructor (Graph := Samples.World) (Some 2%nat) 0%nat) in
  let r := run Samples.quiet_host Samples.throwing_watch dirty_fresh in
  dirty dirty_fresh = true /\
  completion r = Throw 7%nat /\
  watch_calls (calls r) <> [] /\
  dirty (heap r) = false /\
  watch_calls
    (calls ((notify Samples.throwing_watch ;;
             run Samples.quiet_host Samples.throwing_watch)%method (heap r))) = [].
Proof.
  vm_compute. repeat split. discriminate.
Qed.

(** C6, as the code has it.  A freshly constructed watch has its dirty flag
    cleared, no cleanup registered and tracking version 0, wherever it is
    constructed; its first [notify()] finds it not dirty and calls the
    schedule hook.  (That its first [run()] calls the watch function comes
    from the tracking version, not from the flag.) *)
Theorem fresh_watch_is_not_dirty
    {Graph Exn : Type} (w : Watch Graph Exn)
    (consumer : option ReactiveNode) (g : Graph) :
  dirty (constructor consumer g) = false /\
  cleanupFn (constructor consumer g) = NOOP_CLEANUP_FN /\
  trackingVersion (constructor consumer g) = 0 /\
  calls (notify w (constructor consumer g)) = [CallSchedule (constructor consumer g)].
Proof.
  repeat split. now apply notify_clean_calls.
Qed.

(** C6, as stated, fails: the field initialiser is [dirty = false]. *)
Lemma fresh_watch_is_dirty_counterexample :
  dirty (constructor (Graph := Samples.World) None 0%nat) = false.
Proof. reflexivity. Qed.

(** C7, as the code has it.  A [run()] that passes the guard and whose
    pending cleanup returns makes its steps in this order: the dirty flag is
    cleared first (polling, if any, already sees it cleared); the watch is
    installed as active consumer and the tracking version incremented; only
    then the pending cleanup is called; [cleanupFn] is reset before the
    watch function is called; and after the watch function nothing is
    written but the register, which gets back its previous value. *)
Theorem run_step_order
    {Graph Exn : Type} (host : Host Graph Exn) (w : Watch Graph Exn)
    (h hc : Heap Graph) :
  passes_guard host w h ->
  apply_cleanupFn host (cleanupFn h) (try_entry host w h) = Returned hc ->
  let entry := try_entry host w h in
  let hw := with_cleanupFn NOOP_CLEANUP_FN hc in
  calls (run host w h)
    = guard_calls h ++ [CallCleanupFn (cleanupFn h) entry; CallWatch hw] /\
  (forall c, In c (guard_calls h) -> c = CallPoll (with_dirty false h)) /\
  dirty entry = false /\
  activeConsumer entry = Some (this w) /\
  trackingVersion entry = trackingVersion h + 1 /\
  cleanupFn entry = cleanupFn h /\
  cleanupFn hw = NOOP_CLEANUP_FN /\
  heap (run host w h)
    = with_activeConsumer (activeConsumer h)
        (outcome_heap (watch w registerOnCleanup hw)).
Proof.
  intros Hg Hc entry hw.
  rewrite (run_cleanup_returns host w h hc Hg Hc). cbn [calls heap].
  split; [reflexivity |].
  split; [intros c; apply guard_calls_only_poll |].
  repeat split.
Qed.

Lemma run_step_order_witness :
  calls (run Samples.busy_host Samples.plain_watch Samples.after_one_run)
    = [CallPoll (mkHeap (Some 2%nat) false (RegisteredCleanupFn 5) 1 0%nat);
       CallCleanupFn (RegisteredCleanupFn 5)
         (mkHeap (Some 1%nat) false (RegisteredCleanupFn 5) 2 0%nat);
       CallWatch (mkHeap (Some 1%nat) false NOOP_CLEANUP_FN 2 1%nat)] /\
  heap (run Samples.busy_host Samples.plain_watch Samples.after_one_run)
    = mkHeap (Some 2%nat) false NOOP_CLEANUP_FN 2 1%nat.
Proof.
  pose proof (run_step_order Samples.busy_host Samples.plain_watch
                Samples.after_one_run
                (mkHeap (Some 1%nat) false (RegisteredCleanupFn 5) 2 1%nat)) as T.
  destruct T as (Hcalls & _ & _ & _ & _ & _ & _ & Hheap).
  - right; reflexivity.
  - reflexivity.
  - split; [exact Hcalls | exact Hheap].
Defined.

(** C7, as stated, fails: on a watch that has run once and holds a
    registered cleanup, [run] and [run] with the steps in the order the
    specification lists them differ.  The code calls the cleanup with the
    watch already installed as active consumer and the tracking version
    already incremented; in the listed order the cleanup would see the
    previous consumer and the old version. *)
Lemma run_specified_order_counterexample :
  nth_error (calls (run Samples.busy_host Samples.plain_watch Samples.after_one_run)) 1
    = Some (CallCleanupFn (RegisteredCleanupFn 5)
              (mkHeap (Some 1%nat) false (RegisteredCleanupFn 5) 2 0%nat)) /\
  nth_error (calls (run_in_specified_order Samples.busy_host Samples.plain_watch
                      Samples.after_one_run)) 1
    = Some (CallCleanupFn (RegisteredCleanupFn 5)
              (mkHeap (Some 2%nat) false (RegisteredCleanupFn 5) 1 0%nat)) /\
  run Samples.busy_host Samples.plain_watch Samples.after_one_run
    <> run_in_specified_order Samples.busy_host Samples.plain_watch
         Samples.after_one_run.
Proof.
  split; [reflexivity |]. split; [reflexivity |].
  vm_compute. intros E. discriminate E.
Qed.

(** C8.  In a [run()] that reaches the watch function, the cleanup function
    held on entry (the one registered during the previous run) is called
    exactly once, immediately before the watch function, and the watch
    function starts with [cleanupFn] reset to the no-op.  After the run
    [cleanupFn] is what the watch function left there; so if the watch
    function left it as it found it, a later [run()] calls no registered
    cleanup. *)
Theorem run_calls_pending_cleanup_once_then_clears
    {Graph Exn : Type} (host : Host Graph Exn) (w : Watch Graph Exn)
    (h hw : Heap Graph) :
  In (CallWatch hw) (calls (run host w h)) ->
  cleanup_calls (calls (run host w h)) = [cleanupFn h] /\
  calls (run host w h)
    = guard_calls h ++ [CallCleanupFn (cleanupFn h) (try_entry host w h); CallWatch hw] /\
  cleanup_calls (guard_calls h) = [] /\
  cleanupFn hw = NOOP_CLEANUP_FN /\
  cleanupFn (heap (run host w h))
    = cleanupFn (outcome_heap (watch w registerOnCleanup hw)) /\
  forall h' : Heap Graph,
    cleanupFn h' = cleanupFn (heap (run host w h)) ->
    (cleanupFn (outcome_heap (watch w registerOnCleanup hw)) = cleanupFn hw ->
     forall f, In f (cleanup_calls (calls (run host w h'))) -> f = NOOP_CLEANUP_FN) /\
    (passes_guard host w h' ->
     cleanup_calls (calls (run host w h'))
       = [cleanupFn (outcome_heap (watch w registerOnCleanup hw))]).
Proof.
  intros Hin.
  apply run_watch_call_inv in Hin as (Hg & hc & Hc & ->).
  split; [now apply run_cleanup_calls_passed |].
  rewrite (run_cleanup_returns host w h hc Hg Hc). cbn [calls heap].
  split; [reflexivity |].
  split; [apply cleanup_calls_guard |].
  split; [reflexivity |].
  split; [reflexivity |].
  intros h' Hsame. cbn in Hsame. split.
  - intros Hkept f Hf. rewrite Hkept in Hsame. cbn in Hsame.
    destruct (passes_guard_dec host w h') as [Hg' | [Hv' Hp']].
    + rewrite (run_cleanup_calls_passed host w h' Hg') in Hf.
      destruct Hf as [<- | []]. assumption.
    + destruct (run_cleanup_calls_held_back host w h' Hv' Hp') as [E _].
      rewrite E in Hf. destruct Hf.
  - intros Hg'. rewrite (run_cleanup_calls_passed host w h' Hg').
    now rewrite Hsame.
Qed.

Lemma run_calls_pending_cleanup_once_then_clears_witness :
  cleanup_calls (calls (run Samples.busy_host Samples.plain_watch Samples.after_one_run))
    = [RegisteredCleanupFn 5] /\
  cleanupFn (heap (run Samples.busy_host Samples.plain_watch Samples.after_one_run))
    = NOOP_CLEANUP_FN.
Proof.
  pose proof (run_calls_pending_cleanup_once_then_clears
                Samples.busy_host Samples.plain_watch Samples.after_one_run
                (mkHeap (Some 1%nat) false NOOP_CLEANUP_FN 2 1%nat)) as T.
  destruct T as (Honce & _ & _ & _ & Hleft & _).
  - vm_compute. right; right; left; reflexivity.
  - split; [exact Honce | exact Hleft].
Defined.

(** C9.  [cleanup()] calls the cleanup function currently held, once, and
    writes nothing itself: the heap after it is the heap that function left.
    So, unless the cleanup function itself replaced [cleanupFn], the same
    function is still held, a second [cleanup()] calls it again, and so
    does the next [run()] that passes the guard. *)
Theorem cleanup_calls_without_clearing
    {Graph Exn : Type} (host : Host Graph Exn) (w : Watch Graph Exn)
    (h : Heap Graph) :
  cleanupFn (outcome_heap (apply_cleanupFn host (cleanupFn h) h)) = cleanupFn h ->
  calls (cleanup host h) = [CallCleanupFn (cleanupFn h) h] /\
  heap (cleanup host h) = outcome_heap (apply_cleanupFn host (cleanupFn h) h) /\
  cleanupFn (heap (cleanup host h)) = cleanupFn h /\
  cleanup_calls (calls (cleanup host (heap (cleanup host h)))) = [cleanupFn h] /\
  forall h' : Heap Graph,
    cleanupFn h' = cleanupFn (heap (cleanup host h)) ->
    passes_guard host w h' ->
    cleanup_calls (calls (run host w h')) = [cleanupFn h].
Proof.
  intros Hkept.
  assert (Hcalls : forall h0 : Heap Graph,
            calls (cleanup host h0) = [CallCleanupFn (cleanupFn h0) h0]).
  { intros h0. unfold cleanup, call_cleanupFn, bind, read, invoke.
    now destruct (apply_cleanupFn host (cleanupFn h0) h0). }
  assert (Hheap : heap (cleanup host h)
                  = outcome_heap (apply_cleanupFn host (cleanupFn h) h)).
  { unfold cleanup, call_cleanupFn, bind, read, invoke.
    now destruct (apply_cleanupFn host (cleanupFn h) h). }
  assert (Hsame : cleanupFn (heap (cleanup host h)) = cleanupFn h)
    by now rewrite Hheap.
  split; [apply Hcalls |]. split; [exact Hheap |]. split; [exact Hsame |].
  split.
  - rewrite Hcalls. unfold cleanup_calls. cbn [flat_map app]. now rewrite Hsame.
  - intros h' Hh' Hg. rewrite (run_cleanup_calls_passed host w h' Hg).
    now rewrite Hh', Hsame.
Qed.

Lemma cleanup_calls_without_clearing_witness :
  calls (cleanup Samples.quiet_host Samples.after_one_run)
    = [CallCleanupFn (RegisteredCleanupFn 5) Samples.after_one_run] /\
  cleanupFn (heap (cleanup Samples.quiet_host Samples.after_one_run))
    = RegisteredCleanupFn 5 /\
  cleanup_calls
    (calls (cleanup Samples.quiet_host
              (heap (cleanup Samples.quiet_host Samples.after_one_run))))
    = [RegisteredCleanupFn 5].
Proof.
  pose proof (cleanup_calls_without_clearing Samples.quiet_host Samples.plain_watch
                Samples.after_one_run) as T.
  destruct T as (Hcalls & _ & Hheld & Hagain & _).
  - reflexivity.
  - split; [exact Hcalls |]. split; [exact Hheld | exact Hagain].
Defined.

(** C10.  If the pending cleanup function is called by [run()] and throws
    [e] (without having re-entered the watch), [run()] throws [e], the
    watch function is not called, the register holds what it held when
    [run()] was called, the tracking version is one more than before, and
    the throwing function is still the one held in [cleanupFn]: the next
    [run()] that passes the guard calls it again. *)
Theorem run_keeps_throwing_cleanup
    {Graph Exn : Type} (host : Host Graph Exn) (w : Watch Graph Exn)
    (h entry hc : Heap Graph) (f : WatchCleanupFn) (e : Exn) :
  In (CallCleanupFn f entry) (calls (run host w h)) ->
  apply_cleanupFn host f entry = Thrown e hc ->
  trackingVersion hc = trackingVersion entry ->
  cleanupFn hc = cleanupFn entry ->
  completion (run host w h) = Throw e /\
  watch_calls (calls (run host w h)) = [] /\
  activeConsumer (heap (run host w h)) = activeConsumer h /\
  trackingVersion (heap (run host w h)) = trackingVersion h + 1 /\
  f <> NOOP_CLEANUP_FN /\
  cleanupFn (heap (run host w h)) = f /\
  forall h' : Heap Graph,
    cleanupFn h' = cleanupFn (heap (run host w h)) ->
    passes_guard host w h' ->
    cleanup_calls (calls (run host w h')) = [f].
Proof.
  intros Hin Hthrow Hv Hf.
  apply run_cleanup_call_inv in Hin as (Hg & -> & ->).
  rewrite (run_cleanup_throws host w h hc e Hg Hthrow).
  cbn [completion heap calls].
  split; [reflexivity |].
  split.
  { unfold watch_calls. rewrite flat_map_app.
    fold (watch_calls (guard_calls h)). now rewrite watch_calls_guard. }
  split; [reflexivity |].
  split; [cbn; now rewrite Hv |].
  split.
  { intros E. rewrite E in Hthrow. discriminate Hthrow. }
  split; [cbn; now rewrite Hf |].
  intros h' Hh' Hg'. rewrite (run_cleanup_calls_passed host w h' Hg').
  rewrite Hh'. cbn. now rewrite Hf.
Qed.

Lemma run_keeps_throwing_cleanup_witness :
  let r := run Samples.failing_host Samples.plain_watch Samples.after_one_run in
  completion r = Throw 9%nat /\
  watch_calls (calls r) = [] /\
  activeConsumer (heap r) = Some 2%nat /\
  trackingVersion (heap r) = 2 /\
  cleanupFn (heap r) = RegisteredCleanupFn 5.
Proof.
  pose proof (run_keeps_throwing_cleanup Samples.failing_host Samples.plain_watch
                Samples.after_one_run
                (mkHeap (Some 1%nat) false (RegisteredCleanupFn 5) 2 0%nat)
                (mkHeap (Some 1%nat) false (RegisteredCleanupFn 5) 2 0%nat)
                (RegisteredCleanupFn 5) 9%nat) as T.
  destruct T as (Hc & Hw & Ha & Hv & _ & Hf & _).
  - vm_compute. right; left; reflexivity.
  - reflexivity.
  - reflexivity.
  - reflexivity.
  - cbn zeta. repeat split; assumption.
Defined.

(* ================================================================= *)
(** ** Further properties of [Watch] *)

Section MoreAboutRun.
Context {Graph Exn : Type}.
Variable host : Host Graph Exn.
Variable w : Watch Graph Exn.

Lemma guard_passes_true (h : Heap Graph) :
  guard_passes host w h = true <-> passes_guard host w h.
Proof.
  unfold guard_passes, passes_guard. rewrite orb_true_iff, N.eqb_eq. tauto.
Qed.

Lemma guard_passes_false (h : Heap Graph) :
  guard_passes host w h = false <->
  trackingVersion h <> 0 /\ fst (polled host w h) = false.
Proof.
  unfold guard_passes. rewrite orb_false_iff, N.eqb_neq. tauto.
Qed.



End MoreAboutRun.

(** X1.  [run()] leaves the active-consumer register as it found it on
    every path: when it short-circuits, when it returns, and when the
    pending cleanup or the watch function throws, whatever those did to the
    register in between. *)
Theorem run_never_moves_register
    {Graph Exn : Type} (host : Host Graph Exn) (w : Watch Graph Exn)
    (h : Heap Graph) :
  activeConsumer (heap (run host w h)) = activeConsumer h.
Proof.
  destruct (passes_guard_dec host w h) as [Hg | [Hv Hp]].
  - destruct (apply_cleanupFn host (cleanupFn h) (try_entry host w h))
      as [hc | e hc] eqn:Hc.
    + now rewrite (run_cleanup_returns host w h hc Hg Hc).
    + now rewrite (run_cleanup_throws host w h hc e Hg Hc).
  - now rewrite (run_short_circuit host w h Hv Hp).
Qed.


(** X3.  If the schedule hook throws, [notify()] throws the same value and
    does not set the dirty flag: the heap is the one the hook left.  So,
    unless the hook itself set the flag, the next [notify()] calls the hook
    again. *)
Theorem notify_schedule_throws
    {Graph Exn : Type} (w : Watch Graph Exn)
    (h h' : Heap Graph) (e : Exn) :
  dirty h = false ->
  schedule w (this w) h = Thrown e h' ->
  dirty h' = false ->
  completion (notify w h) = Throw e /\
  heap (notify w h) = h' /\
  calls (notify w (heap (notify w h))) = [CallSchedule h'].
Proof.
  intros Hd Hs Hd'.
  assert (Hn : notify w h = mkExec _ (Throw e) h' [CallSchedule h]).
  { unfold notify, call_schedule, bind, read, write, invoke.
    rewrite Hd; cbn. now rewrite Hs. }
  rewrite Hn. cbn [completion heap].
  split; [reflexivity |]. split; [reflexivity |].
  now apply notify_clean_calls.
Qed.

Lemma notify_schedule_throws_witness :
  let h := constructor (Graph := Samples.World) None 0%nat in
  completion (notify Samples.unschedulable_watch h) = Throw 3%nat /\
  heap (notify Samples.unschedulable_watch h) = h /\
  calls (notify Samples.unschedulable_watch (heap (notify Samples.unschedulable_watch h)))
    = [CallSchedule h].
Proof.
  apply (notify_schedule_throws Samples.unschedulable_watch
           (constructor None 0%nat) (constructor None 0%nat) 3%nat);
    reflexivity.
Defined.

(** X4.  [notify()] calls nothing but the schedule hook, and that at most
    once; on a watch that is already dirty it is a no-op (same heap, no
    call); and it throws only what the schedule hook threw. *)
Theorem notify_only_schedules
    {Graph Exn : Type} (w : Watch Graph Exn) (h : Heap Graph) :
  calls (notify w h) = (if dirty h then [] else [CallSchedule h]) /\
  (dirty h = true -> notify (Exn := Exn) w h = mkExec _ (Normal tt) h []) /\
  (forall e, completion (notify w h) = Throw e ->
     dirty h = false /\ exists h', schedule w (this w) h = Thrown e h').
Proof.
  split; [| split].
  - destruct (dirty h) eqn:Hd.
    + now rewrite (notify_dirty w h Hd).
    + now apply notify_clean_calls.
  - apply notify_dirty.
  - intros e. destruct (dirty h) eqn:Hd.
    + rewrite (notify_dirty w h Hd). discriminate.
    + unfold notify, call_schedule, bind, read, write, invoke.
      rewrite Hd; cbn.
      destruct (schedule w (this w) h) as [h' | e' h'] eqn:Hs; cbn.
      * discriminate.
      * intros E; injection E as ->. split; [reflexivity | now exists h'].
Qed.

(** X5.  Registering a cleanup replaces the one registered before: if the
    watch function registers [f1] and then [f2] and returns, the run leaves
    [f2] registered, and the next [run()] that passes the guard calls [f2]
    and only [f2]; [f1] is dropped without ever being called. *)
Theorem last_registered_cleanup_wins
    {Graph Exn : Type} (host : Host Graph Exn) (w : Watch Graph Exn)
    (h hw hw' : Heap Graph) (f1 f2 : WatchCleanupFn) :
  In (CallWatch hw) (calls (run host w h)) ->
  watch w registerOnCleanup hw
    = Returned (registerOnCleanup f2 (registerOnCleanup f1 hw')) ->
  completion (run host w h) = Normal tt /\
  cleanupFn (heap (run host w h)) = f2 /\
  forall h' : Heap Graph,
    cleanupFn h' = cleanupFn (heap (run host w h)) ->
    passes_guard host w h' ->
    cleanup_calls (calls (run host w h')) = [f2].
Proof.
  intros Hin Hw.
  apply run_watch_call_inv in Hin as (Hg & hc & Hc & ->).
  assert (Hleft : cleanupFn (heap (run host w h)) = f2).
  { rewrite (run_cleanup_returns host w h hc Hg Hc). cbn [heap].
    now rewrite Hw. }
  split; [| split].
  - rewrite (run_cleanup_returns host w h hc Hg Hc). cbn [completion].
    now rewrite Hw.
  - exact Hleft.
  - intros h' Hh' Hg'. rewrite (run_cleanup_calls_passed host w h' Hg').
    now rewrite Hh', Hleft.
Qed.

Lemma last_registered_cleanup_wins_witness :
  completion (run Samples.quiet_host Samples.twice_registering_watch
                (constructor None 0%nat)) = Normal tt /\
  cleanupFn (heap (run Samples.quiet_host Samples.twice_registering_watch
                     (constructor None 0%nat))) = RegisteredCleanupFn 6.
Proof.
  pose proof (last_registered_cleanup_wins
                Samples.quiet_host Samples.twice_registering_watch
                (constructor None 0%nat)
                (mkHeap (Some 1%nat) false NOOP_CLEANUP_FN 1 0%nat)
                (mkHeap (Some 1%nat) false NOOP_CLEANUP_FN 1 0%nat)
                (RegisteredCleanupFn 5) (RegisteredCleanupFn 6)) as T.
  destruct T as (Hc & Hf & _).
  - vm_compute. right; left; reflexivity.
  - reflexivity.
  - split; [exact Hc | exact Hf].
Defined.

(** X6.  [cleanup()] with no cleanup registered (a fresh watch, or a watch
    whose last run registered none) returns normally and changes nothing:
    the only call is to the no-op. *)
Theorem cleanup_without_registration_is_noop
    {Graph Exn : Type} (host : Host Graph Exn) (h : Heap Graph) :
  cleanupFn h = NOOP_CLEANUP_FN ->
  completion (cleanup host h) = Normal tt /\
  heap (cleanup host h) = h /\
  calls (cleanup host h) = [CallCleanupFn NOOP_CLEANUP_FN h].
Proof.
  intros Hf. unfold cleanup, call_cleanupFn, bind, read, invoke.
  rewrite Hf. cbn. repeat split.
Qed.

Lemma cleanup_without_registration_is_noop_witness :
  let h := constructor (Graph := Samples.World) (Some 2%nat) 0%nat in
  completion (cleanup Samples.failing_host h) = Normal tt /\
  heap (cleanup Samples.failing_host h) = h /\
  calls (cleanup Samples.failing_host h) = [CallCleanupFn NOOP_CLEANUP_FN h].
Proof.
  apply (cleanup_without_registration_is_noop Samples.failing_host
           (constructor (Some 2%nat) 0%nat)).
  reflexivity.
Defined.

(** X7.  Whatever path a [run()] takes (short-circuit, normal return,
    throw from the cleanup or from the watch function), if the callbacks do
    not re-enter the watch then afterwards the dirty flag is cleared, the
    tracking version is one more than before if the guard let the call
    through and unchanged otherwise, and the next [notify()] calls the
    schedule hook: every [run()] ends the dirty period. *)
Theorem run_ends_dirty_period
    {Graph Exn : Type} (host : Host Graph Exn) (w : Watch Graph Exn)
    (h : Heap Graph) :
  callbacks_leave_watch_alone host w h ->
  dirty (heap (run host w h)) = false /\
  trackingVersion (heap (run host w h))
    = (if guard_passes host w h then trackingVersion h + 1 else trackingVersion h) /\
  calls (notify w (heap (run host w h))) = [CallSchedule (heap (run host w h))].
Proof.
  intros [[Hcd Hcv] Hwatch].
  assert (Hmain :
    dirty (heap (run host w h)) = false /\
    trackingVersion (heap (run host w h))
      = (if guard_passes host w h then trackingVersion h + 1 else trackingVersion h)).
  { destruct (passes_guard_dec host w h) as [Hg | [Hv Hp]].
    - rewrite (proj2 (guard_passes_true host w h) Hg).
      destruct (apply_cleanupFn host (cleanupFn h) (try_entry host w h))
        as [hc | e hc] eqn:Hc; cbn [outcome_heap] in Hcd, Hcv.
      + rewrite (run_cleanup_returns host w h hc Hg Hc). cbn [heap].
        destruct (Hwatch (with_cleanupFn NOOP_CLEANUP_FN hc)) as [Hwd Hwv].
        cbn. rewrite Hwd, Hwv. cbn. now rewrite Hcd, Hcv.
      + rewrite (run_cleanup_throws host w h hc e Hg Hc). cbn.
        now rewrite Hcd, Hcv.
    - rewrite (proj2 (guard_passes_false host w h) (conj Hv Hp)).
      rewrite (run_short_circuit host w h Hv Hp). now split. }
  destruct Hmain as [Hd Hv]. split; [exact Hd |]. split; [exact Hv |].
  now apply notify_clean_calls.
Qed.

Lemma run_ends_dirty_period_witness :
  let h := with_dirty true Samples.after_one_run in
  dirty (heap (run Samples.busy_host Samples.registering_watch h)) = false /\
  trackingVersion (heap (run Samples.busy_host Samples.registering_watch h)) = 2.
Proof.
  pose proof (run_ends_dirty_period Samples.busy_host Samples.registering_watch
                (with_dirty true Samples.after_one_run)) as T.
  destruct T as (Hd & Hv & _).
  - split; [split; reflexivity |]. intros hw; split; reflexivity.
  - split; [exact Hd | exact Hv].
Defined.

(** X8.  Notifications coming from the graph
    ([onConsumerDependencyMayHaveChanged()]) and direct [notify()] calls
    share one dirty period: from a watch that is not dirty, any non-empty
    row of them, in any mix, calls the schedule hook exactly once, in the
    first, and leaves the watch dirty. *)
Theorem mixed_notifications_schedule_once
    {Graph Exn : Type} (w : Watch Graph Exn)
    (h h' : Heap Graph) (n : Notification) (ns : list Notification) :
  dirty h = false ->
  schedule w (this w) h = Returned h' ->
  deliver_all (Exn := Exn) w (n :: ns) h
    = mkExec _ (Normal tt) (with_dirty true h') [CallSchedule h].
Proof.
  intros Hd Hs.
  assert (Hrest : forall (l : list Notification) (h0 : Heap Graph),
            dirty h0 = true ->
            deliver_all (Exn := Exn) w l h0 = mkExec _ (Normal tt) h0 []).
  { induction l as [| m l IH]; intros h0 Hd0; cbn [deliver_all].
    - reflexivity.
    - unfold bind.
      assert (Hm : deliver (Exn := Exn) w m h0 = mkExec _ (Normal tt) h0 [])
        by (destruct m; apply (notify_dirty w h0 Hd0)).
      rewrite Hm, (IH h0 Hd0). reflexivity. }
  cbn [deliver_all]. unfold bind.
  assert (Hfirst : deliver (Exn := Exn) w n h
                   = mkExec _ (Normal tt) (with_dirty true h') [CallSchedule h])
    by (destruct n; apply (notify_clean w h h' Hd Hs)).
  rewrite Hfirst, (Hrest ns (with_dirty true h')) by reflexivity.
  reflexivity.
Qed.

Lemma mixed_notifications_schedule_once_witness :
  let h := constructor (Graph := Samples.World) None 0%nat in
  deliver_all (Exn := Samples.Error) Samples.plain_watch
    [FromDependency; Direct; FromDependency] h
    = mkExec _ (Normal tt) (with_dirty true h) [CallSchedule h].
Proof.
  apply (mixed_notifications_schedule_once Samples.plain_watch
           (constructor None 0%nat) (constructor None 0%nat)
           FromDependency [Direct; FromDependency]);
    reflexivity.
Defined.

(** X9.  [run()] raises no error of its own: it throws [e] exactly when
    the guard lets the call through and either the pending cleanup throws
    [e], or the cleanup returns and the watch function throws [e]. *)
Theorem run_throws_only_what_callbacks_throw
    {Graph Exn : Type} (host : Host Graph Exn) (w : Watch Graph Exn)
    (h : Heap Graph) (e : Exn) :
  completion (run host w h) = Throw e <->
  passes_guard host w h /\
  ((exists hc,
      apply_cleanupFn host (cleanupFn h) (try_entry host w h) = Thrown e hc) \/
   (exists hc hw',
      apply_cleanupFn host (cleanupFn h) (try_entry host w h) = Returned hc /\
      watch w registerOnCleanup (with_cleanupFn NOOP_CLEANUP_FN hc) = Thrown e hw')).
Proof.
  split.
  - destruct (passes_guard_dec host w h) as [Hg | [Hv Hp]].
    + destruct (apply_cleanupFn host (cleanupFn h) (try_entry host w h))
        as [hc | e' hc] eqn:Hc.
      * rewrite (run_cleanup_returns host w h hc Hg Hc). cbn [completion].
        destruct (watch w registerOnCleanup (with_cleanupFn NOOP_CLEANUP_FN hc))
          as [hw' | e' hw'] eqn:Hw.
        -- discriminate.
        -- intros E; injection E as ->. split; [assumption |].
           right. exists hc, hw'. now split.
      * rewrite (run_cleanup_throws host w h hc e' Hg Hc). cbn [completion].
        intros E; injection E as ->. split; [assumption |].
        left. now exists hc.
    + rewrite (run_short_circuit host w h Hv Hp). discriminate.
  - intros [Hg [[hc Hc] | (hc & hw' & Hc & Hw)]].
    + now rewrite (run_cleanup_throws host w h hc e Hg Hc).
    + rewrite (run_cleanup_returns host w h hc Hg Hc). cbn [completion].
      now rewrite Hw.
Qed.

(* ================================================================= *)
(** ** Properties of [ComponentNgElementStrategy] *)

Module ElementsFacts.
Import Elements.

Section Keyed.
Context {A : Type}.

Lemma assoc_get_set_same (p : string) (a : A) (m : list (string * A)) :
  assoc_get p (assoc_set p a m) = Some a.
Proof.
  induction m as [| [q b] m IH]; cbn.
  - now rewrite String.eqb_refl.
  - destruct (String.eqb p q) eqn:E; cbn; rewrite E; [reflexivity | exact IH].
Qed.

Lemma assoc_get_set_other (p q : string) (a : A) (m : list (string * A)) :
  q <> p -> assoc_get q (assoc_set p a m) = assoc_get q m.
Proof.
  intros Hne. induction m as [| [r b] m IH]; cbn.
  - apply String.eqb_neq in Hne. now rewrite Hne.
  - destruct (String.eqb p r) eqn:E; cbn.
    + apply String.eqb_eq in E; subst r.
      apply String.eqb_neq in Hne. now rewrite Hne.
    + destruct (String.eqb q r); [reflexivity | exact IH].
Qed.

End Keyed.

Lemma set_has_delete_same (p : string) (s : list string) :
  set_has p (set_delete p s) = false.
Proof.
  unfold set_has, set_delete. induction s as [| q s IH]; cbn.
  - reflexivity.
  - destruct (String.eqb p q) eqn:E; cbn; [exact IH | now rewrite E].
Qed.

Lemma set_has_delete_other (p q : string) (s : list string) :
  q <> p -> set_has q (set_delete p s) = set_has q s.
Proof.
  intros Hne. unfold set_has, set_delete. induction s as [| r s IH]; cbn.
  - reflexivity.
  - destruct (String.eqb p r) eqn:E; cbn.
    + apply String.eqb_eq in E; subst r.
      apply String.eqb_neq in Hne. now rewrite Hne.
    + now rewrite IH.
Qed.

Section Unfolding.
Context {Value Component CdRef Element Exn : Type}.
Variable env : Env Value Component CdRef Element Exn.

Local Abbreviation State := (Strategy Value Component CdRef).

(** [getInputValue] only reads. *)
Lemma getInputValue_reads (s : State) (p : string) :
  getInputValue env p s = mkResult _ (Normal (input_value env s p)) s [].
Proof.
  unfold getInputValue, runInZone, input_value, seq, get, done.
  now destruct (componentRef s).
Qed.

(** [recordInputChange] writes [inputChanges] and nothing else, calls
    nothing and does not throw; without [OnChanges] it writes nothing. *)
Lemma with_inputChanges_same (s : State) :
  with_inputChanges (inputChanges s) s = s.
Proof. now destruct s. Qed.

(** [recordInputChange] writes [inputChanges] and nothing else, calls
    nothing and does not throw. *)
Lemma recordInputChange_records (s : State) (p : string) (v : Value) :
  recordInputChange env p v s
    = mkResult _ (Normal tt) (with_inputChanges (recorded env s p v) s) [].
Proof.
  unfold recordInputChange, recorded, member, seq, get, set, done.
  destruct (implementsOnChanges s) eqn:Himpl; cbn -[getInputValue set_has input_value].
  - pose proof (with_inputChanges_same s) as Hsame.
    destruct (inputChanges s) as [cs |] eqn:Hic;
      cbn -[getInputValue set_has input_value]; rewrite ?Hic.
    + destruct (assoc_get p cs) as [ch |]; [| destruct (inherited env p)];
        cbn -[getInputValue set_has input_value].
      * reflexivity.
      * now rewrite Hsame.
      * destruct (set_has p (unchangedInputs s));
          cbn -[getInputValue set_has input_value].
        -- reflexivity.
        -- now rewrite getInputValue_reads.
    + destruct (inherited env p); cbn -[getInputValue set_has input_value].
      * reflexivity.
      * destruct (set_has p (unchangedInputs s));
          cbn -[getInputValue set_has input_value].
        -- reflexivity.
        -- now rewrite getInputValue_reads.
  - now rewrite with_inputChanges_same.
Qed.

Lemma setInputValue_cached (s : State) (p : string) (v : Value) :
  componentRef s = None ->
  setInputValue env p v s
    = mkResult _ (Normal tt)
        (with_initialInputValues (assoc_set p v (initialInputValues s)) s) [].
Proof.
  intros Hc. unfold setInputValue, runInZone, seq, get, set.
  now rewrite Hc.
Qed.

Lemma setInputValue_ignored (s : State) (c : Component) (p : string) (v : Value) :
  componentRef s = Some c ->
  ignored env s p v = true ->
  setInputValue env p v s = mkResult _ (Normal tt) s [].
Proof.
  intros Hc Hi. unfold ignored in Hi.
  unfold setInputValue, runInZone, seq, get.
  rewrite Hc, getInputValue_reads.
  cbn -[recordInputChange scheduleDetectChanges input_value set_has].
  now rewrite Hi.
Qed.

Lemma setInputValue_effective (s : State) (c : Component) (p : string) (v : Value) :
  componentRef s = Some c ->
  ignored env s p v = false ->
  setInputValue env p v s =
    match set_property env p v c with
    | Failed e c' =>
        mkResult _ (Throw e) (with_componentRef (Some c') (marked env s p v))
          [mkEvent (SetProperty p v) (marked env s p v)]
    | Done c' =>
        match scheduledChangeDetectionFn s with
        | Some _ =>
            mkResult _ (Normal tt) (with_componentRef (Some c') (marked env s p v))
              [mkEvent (SetProperty p v) (marked env s p v)]
        | None =>
            mkResult _ (Normal tt)
              (with_scheduledChangeDetectionFn (Some CancelChangeDetection)
                 (with_componentRef (Some c') (marked env s p v)))
              [mkEvent (SetProperty p v) (marked env s p v);
               mkEvent ScheduleBeforeRender
                 (with_componentRef (Some c') (marked env s p v))]
        end
    end.
Proof.
  intros Hc Hi. unfold ignored in Hi.
  unfold setInputValue, runInZone, seq, get.
  rewrite Hc, getInputValue_reads.
  cbn -[recordInputChange scheduleDetectChanges input_value set_has].
  rewrite Hi, recordInputChange_records.
  cbn -[scheduleDetectChanges input_value set_has set_delete recorded].
  unfold on_component, marked; cbn -[scheduleDetectChanges set_delete recorded].
  rewrite Hc.
  destruct (set_property env p v c) as [c' | e c'];
    cbn -[scheduleDetectChanges set_delete recorded]; [| reflexivity].
  unfold scheduleDetectChanges, seq, get, set, emit, done;
    cbn -[set_delete recorded].
  now destruct (scheduledChangeDetectionFn s).
Qed.

End Unfolding.

Section Inputs.
Context {Value Component CdRef Element Exn : Type}.
Variable env : Env Value Component CdRef Element Exn.

Local Abbreviation State := (Strategy Value Component CdRef).

Lemma pending_change_marked (s : State) (p q : string) (v : Value) :
  pending_change (marked env s p v) q
    = match recorded env s p v with
      | Some changes => assoc_get q changes
      | None => None
      end.
Proof. reflexivity. Qed.

(** What one [setInputValue] does to the request for a change detection:
    none is made while one is held; otherwise at most one is made, and if
    it is made it is held afterwards. *)
Lemma setInputValue_requests (s : State) (p : string) (v : Value) :
  let r := setInputValue env p v s in
  (held (scheduledChangeDetectionFn s) = true ->
     count_op is_ScheduleBeforeRender (events r) = 0%nat /\
     held (scheduledChangeDetectionFn (after r)) = true) /\
  (count_op is_ScheduleBeforeRender (events r) <= 1)%nat /\
  (count_op is_ScheduleBeforeRender (events r) = 1%nat ->
     held (scheduledChangeDetectionFn (after r)) = true).
Proof.
  destruct (componentRef s) as [c |] eqn:Hc.
  - destruct (ignored env s p v) eqn:Hi.
    + rewrite (setInputValue_ignored env s c p v Hc Hi). cbn.
      repeat split; auto; discriminate.
    + rewrite (setInputValue_effective env s c p v Hc Hi).
      destruct (set_property env p v c) as [c' | e c'].
      * destruct (scheduledChangeDetectionFn s) eqn:Hs; cbn; rewrite ?Hs; cbn;
          repeat split; auto; discriminate.
      * cbn. repeat split; auto; discriminate.
  - rewrite (setInputValue_cached env s p v Hc). cbn.
    repeat split; auto; discriminate.
Qed.

(** What one [setInputValue] does to [inputChanges] when the component does
    not implement [OnChanges]: nothing. *)
Lemma setInputValue_without_OnChanges (s : State) (p : string) (v : Value) :
  implementsOnChanges s = false ->
  inputChanges (after (setInputValue env p v s)) = inputChanges s /\
  implementsOnChanges (after (setInputValue env p v s)) = false.
Proof.
  intros Himpl.
  assert (Hrec : recorded env s p v = inputChanges s)
    by (unfold recorded; now rewrite Himpl).
  destruct (componentRef s) as [c |] eqn:Hc.
  - destruct (ignored env s p v) eqn:Hi.
    + rewrite (setInputValue_ignored env s c p v Hc Hi). now split.
    + rewrite (setInputValue_effective env s c p v Hc Hi).
      destruct (set_property env p v c) as [c' | e c'];
        [destruct (scheduledChangeDetectionFn s) |];
        cbn -[recorded]; now rewrite Hrec.
  - rewrite (setInputValue_cached env s p v Hc). now split.
Qed.

Lemma setInputValues_cons (p : string) (v : Value)
    (l : list (string * Value)) (s : State) :
  setInputValues env ((p, v) :: l) s
    = match setInputValue env p v s with
      | mkResult _ (Normal _) s1 es1 =>
          match setInputValues env l s1 with
          | mkResult _ c s2 es2 => mkResult _ c s2 (es1 ++ es2)
          end
      | mkResult _ (Throw e) s1 es1 => mkResult _ (Throw e) s1 es1
      end.
Proof. reflexivity. Qed.

Lemma count_op_app (f : Op Value -> bool)
    (a b : list (Event Value Component CdRef)) :
  count_op f (a ++ b) = (count_op f a + count_op f b)%nat.
Proof. unfold count_op. now rewrite filter_app, length_app. Qed.

End Inputs.

(** X10.  Before the component exists, [setInputValue] only caches: it
    calls nothing, changes nothing but the cache, and [getInputValue] then
    answers the value just set for that property and what it answered
    before for every other property. *)
Theorem input_is_cached_until_component_exists
    {Value Component CdRef Element Exn : Type}
    (env : Env Value Component CdRef Element Exn)
    (s : Strategy Value Component CdRef) (p : string) (v : Value) :
  componentRef s = None ->
  setInputValue env p v s
    = mkResult _ (Normal tt)
        (with_initialInputValues (assoc_set p v (initialInputValues s)) s) [] /\
  completion (getInputValue env p (after (setInputValue env p v s))) = Normal v /\
  forall q, q <> p ->
    completion (getInputValue env q (after (setInputValue env p v s)))
      = completion (getInputValue env q s).
Proof.
  intros Hc. rewrite (setInputValue_cached env s p v Hc). cbn [after].
  split; [reflexivity |]. split.
  - rewrite getInputValue_reads. cbn [completion].
    unfold input_value. cbn. rewrite Hc.
    now rewrite assoc_get_set_same.
  - intros q Hq. rewrite !getInputValue_reads. cbn [completion].
    unfold input_value. cbn. rewrite Hc.
    now rewrite (assoc_get_set_other p q v (initialInputValues s) Hq).
Qed.

(** X11.  Once the component exists, a value strictly equal to the current
    one is ignored, unless it is [undefined] and the input has never
    changed: the state is untouched, nothing is recorded, the instance is
    not written and no change detection is requested. *)
Theorem equal_value_is_ignored
    {Value Component CdRef Element Exn : Type}
    (env : Env Value Component CdRef Element Exn)
    (s : Strategy Value Component CdRef) (c : Component)
    (p : string) (v : Value) :
  componentRef s = Some c ->
  strictEquals env v (get_property env c p) = true ->
  is_undefined env v = false \/ set_has p (unchangedInputs s) = false ->
  setInputValue env p v s = mkResult _ (Normal tt) s [].
Proof.
  intros Hc He Hu.
  apply (setInputValue_ignored env s c p v Hc).
  unfold ignored, input_value. rewrite Hc, He. cbn.
  destruct Hu as [-> | ->]; [reflexivity | now rewrite andb_false_r].
Qed.

(** X12.  The exception to X11: the first [undefined] given to an input
    that has never changed is taken as a change although it is strictly
    equal to the current value.  It is recorded as a first change from
    [undefined], the input stops counting as unchanged, and a second
    [undefined] is then ignored. *)
Theorem first_undefined_is_a_change
    {Value Component CdRef Element Exn : Type}
    (env : Env Value Component CdRef Element Exn)
    (s : Strategy Value Component CdRef) (c c' : Component)
    (p : string) (v : Value) :
  componentRef s = Some c ->
  implementsOnChanges s = true ->
  pending_change s p = None ->
  inherited env p = false ->
  is_undefined env v = true ->
  set_has p (unchangedInputs s) = true ->
  set_property env p v c = Done c' ->
  strictEquals env v (get_property env c' p) = true ->
  let r := setInputValue env p v s in
  completion r = Normal tt /\
  pending_change (after r) p = Some (mkSimpleChange (undefined env) v true) /\
  set_has p (unchangedInputs (after r)) = false /\
  hasInputChanges (after r) = true /\
  setInputValue env p v (after r) = mkResult _ (Normal tt) (after r) [].
Proof.
  intros Hc Himpl Hpend Hinh Hundef Hu Hset Heq r.
  assert (Hi : ignored env s p v = false).
  { unfold ignored. rewrite Hundef, Hu. cbn. apply andb_false_r. }
  assert (Hrec : recorded env s p v
                 = Some (assoc_set p (mkSimpleChange (undefined env) v true)
                           (match inputChanges s with Some cs => cs | None => [] end))).
  { unfold recorded, member. rewrite Himpl.
    unfold pending_change in Hpend.
    destruct (inputChanges s) as [cs |]; cbn in *;
      rewrite ?Hpend, Hinh, Hu; reflexivity. }
  assert (Hafter :
    pending_change (after r) p = Some (mkSimpleChange (undefined env) v true) /\
    set_has p (unchangedInputs (after r)) = false /\
    hasInputChanges (after r) = true /\
    componentRef (after r) = Some c' /\
    completion r = Normal tt).
  { subst r. rewrite (setInputValue_effective env s c p v Hc Hi), Hset.
    destruct (scheduledChangeDetectionFn s);
      cbn -[recorded set_has set_delete];
      change (pending_change (marked env s p v) p
              = Some (mkSimpleChange (undefined env) v true) /\
              set_has p (set_delete p (unchangedInputs s)) = false /\
              true = true /\ Some c' = Some c' /\ Normal (Exn := Exn) tt = Normal tt);
      rewrite pending_change_marked, Hrec, assoc_get_set_same, set_has_delete_same;
      repeat split. }
  destruct Hafter as (Hp & Hun & Hh & Hc' & Hcompl).
  repeat split; try assumption.
  apply (equal_value_is_ignored env (after r) c' p v Hc' Heq). now right.
Qed.

(** X13.  Once the component exists, a value that is not ignored is written
    to the instance, the input stops counting as unchanged,
    [hasInputChanges] is set, and a change detection is held scheduled
    afterwards: requested now if none was held, not requested again if one
    was.  The cache and the destroy timer are left alone. *)
Theorem new_value_is_written_and_scheduled
    {Value Component CdRef Element Exn : Type}
    (env : Env Value Component CdRef Element Exn)
    (s : Strategy Value Component CdRef) (c c' : Component)
    (p : string) (v : Value) :
  componentRef s = Some c ->
  ignored env s p v = false ->
  set_property env p v c = Done c' ->
  let r := setInputValue env p v s in
  completion r = Normal tt /\
  componentRef (after r) = Some c' /\
  set_has p (unchangedInputs (after r)) = false /\
  hasInputChanges (after r) = true /\
  held (scheduledChangeDetectionFn (after r)) = true /\
  ops (events r)
    = SetProperty p v ::
      (if held (scheduledChangeDetectionFn s) then [] else [ScheduleBeforeRender]) /\
  initialInputValues (after r) = initialInputValues s /\
  scheduledDestroyFn (after r) = scheduledDestroyFn s.
Proof.
  intros Hc Hi Hset r. subst r.
  rewrite (setInputValue_effective env s c p v Hc Hi), Hset.
  destruct (scheduledChangeDetectionFn s) eqn:Hs;
    cbn -[recorded set_has set_delete];
    rewrite ?Hs, set_has_delete_same; repeat split.
Qed.

(** X14.  If writing the property of the instance throws, [setInputValue]
    throws the same value; by then the change is recorded, the input no
    longer counts as unchanged and [hasInputChanges] is set, but no change
    detection has been requested. *)
Theorem failed_write_leaves_change_recorded
    {Value Component CdRef Element Exn : Type}
    (env : Env Value Component CdRef Element Exn)
    (s : Strategy Value Component CdRef) (c c' : Component)
    (p : string) (v : Value) (e : Exn) :
  componentRef s = Some c ->
  ignored env s p v = false ->
  set_property env p v c = Failed e c' ->
  let r := setInputValue env p v s in
  completion r = Throw e /\
  inputChanges (after r) = inputChanges (after (recordInputChange env p v s)) /\
  set_has p (unchangedInputs (after r)) = false /\
  hasInputChanges (after r) = true /\
  scheduledChangeDetectionFn (after r) = scheduledChangeDetectionFn s /\
  ops (events r) = [SetProperty p v].
Proof.
  intros Hc Hi Hset r. subst r.
  rewrite (setInputValue_effective env s c p v Hc Hi), Hset.
  rewrite recordInputChange_records.
  cbn -[recorded set_has set_delete].
  rewrite set_has_delete_same. repeat split.
Qed.

(** X15.  A change already pending for a property absorbs later values of
    that property: its [previousValue] and [firstChange] stay, its
    [currentValue] becomes the new value, and the changes pending for other
    properties are untouched. *)
Theorem pending_change_absorbs_new_value
    {Value Component CdRef Element Exn : Type}
    (env : Env Value Component CdRef Element Exn)
    (s : Strategy Value Component CdRef) (c : Component)
    (p : string) (v : Value) (change : SimpleChange Value) :
  componentRef s = Some c ->
  implementsOnChanges s = true ->
  pending_change s p = Some change ->
  ignored env s p v = false ->
  let r := setInputValue env p v s in
  pending_change (after r) p
    = Some (mkSimpleChange (previousValue change) v (firstChange change)) /\
  forall q, q <> p -> pending_change (after r) q = pending_change s q.
Proof.
  intros Hc Himpl Hpend Hi r.
  unfold pending_change in Hpend.
  destruct (inputChanges s) as [cs |] eqn:Hic; [| discriminate].
  assert (Hrec : recorded env s p v
                 = Some (assoc_set p
                           (mkSimpleChange (previousValue change) v (firstChange change))
                           cs)).
  { unfold recorded, member. now rewrite Himpl, Hic, Hpend. }
  assert (Hafter : forall q,
            pending_change (after r) q = pending_change (marked env s p v) q).
  { intros q. subst r. rewrite (setInputValue_effective env s c p v Hc Hi).
    destruct (set_property env p v c);
      [destruct (scheduledChangeDetectionFn s) |]; reflexivity. }
  split.
  - now rewrite Hafter, pending_change_marked, Hrec, assoc_get_set_same.
  - intros q Hq.
    rewrite Hafter, pending_change_marked, Hrec.
    rewrite (assoc_get_set_other p q _ cs Hq).
    unfold pending_change. now rewrite Hic.
Qed.

(** X16.  With no change pending for a property (and the name not one that
    plain objects inherit), a value that is not ignored is recorded as a
    new change: a first change from [undefined] if the input had never
    changed, and otherwise a change from the value the instance held.  The
    changes pending for other properties are untouched. *)
Theorem new_change_is_recorded
    {Value Component CdRef Element Exn : Type}
    (env : Env Value Component CdRef Element Exn)
    (s : Strategy Value Component CdRef) (c : Component)
    (p : string) (v : Value) :
  componentRef s = Some c ->
  implementsOnChanges s = true ->
  pending_change s p = None ->
  inherited env p = false ->
  ignored env s p v = false ->
  let r := setInputValue env p v s in
  pending_change (after r) p
    = Some (if set_has p (unchangedInputs s)
            then mkSimpleChange (undefined env) v true
            else mkSimpleChange (get_property env c p) v false) /\
  forall q, q <> p -> pending_change (after r) q = pending_change s q.
Proof.
  intros Hc Himpl Hpend Hinh Hi r.
  set (cs := match inputChanges s with Some cs => cs | None => [] end).
  assert (Hnone : assoc_get p cs = None).
  { unfold pending_change in Hpend. subst cs.
    now destruct (inputChanges s). }
  assert (Hrec : recorded env s p v
                 = Some (assoc_set p
                           (mkSimpleChange
                              (if set_has p (unchangedInputs s) then undefined env
                               else get_property env c p)
                              v (set_has p (unchangedInputs s)))
                           cs)).
  { unfold recorded, member, input_value. fold cs.
    now rewrite Himpl, Hnone, Hinh, Hc. }
  assert (Hafter : forall q,
            pending_change (after r) q = pending_change (marked env s p v) q).
  { intros q. subst r. rewrite (setInputValue_effective env s c p v Hc Hi).
    destruct (set_property env p v c);
      [destruct (scheduledChangeDetectionFn s) |]; reflexivity. }
  split.
  - rewrite Hafter, pending_change_marked, Hrec, assoc_get_set_same.
    now destruct (set_has p (unchangedInputs s)).
  - intros q Hq.
    rewrite Hafter, pending_change_marked, Hrec.
    rewrite (assoc_get_set_other p q _ cs Hq).
    unfold pending_change. subst cs. now destruct (inputChanges s).
Qed.

(** X17.  A property whose name every plain object inherits ([toString],
    [constructor], ...) never gets a change recorded: the lookup in
    [inputChanges] finds the inherited member, takes it for a pending
    change and returns.  The value is still written to the instance. *)
Theorem inherited_name_is_never_recorded
    {Value Component CdRef Element Exn : Type}
    (env : Env Value Component CdRef Element Exn)
    (s : Strategy Value Component CdRef) (c c' : Component)
    (p : string) (v : Value) :
  componentRef s = Some c ->
  implementsOnChanges s = true ->
  pending_change s p = None ->
  inherited env p = true ->
  ignored env s p v = false ->
  set_property env p v c = Done c' ->
  let r := setInputValue env p v s in
  completion r = Normal tt /\
  componentRef (after r) = Some c' /\
  (forall q, pending_change (after r) q = pending_change s q).
Proof.
  intros Hc Himpl Hpend Hinh Hi Hset r.
  set (cs := match inputChanges s with Some cs => cs | None => [] end).
  assert (Hnone : assoc_get p cs = None).
  { unfold pending_change in Hpend. subst cs.
    now destruct (inputChanges s). }
  assert (Hrec : recorded env s p v = Some cs).
  { unfold recorded, member. fold cs. now rewrite Himpl, Hnone, Hinh. }
  subst r. rewrite (setInputValue_effective env s c p v Hc Hi), Hset.
  assert (Hmarked : forall q, pending_change (marked env s p v) q = pending_change s q).
  { intros q. rewrite pending_change_marked, Hrec.
    unfold pending_change. subst cs. now destruct (inputChanges s). }
  destruct (scheduledChangeDetectionFn s); cbn -[marked];
    (split; [reflexivity |]); (split; [reflexivity |]); exact Hmarked.
Qed.

(** X18.  For a component that does not implement [OnChanges], no row of
    [setInputValue] calls ever records a change: [inputChanges] stays as it
    was (in particular [null]), whichever calls are ignored, go through or
    throw. *)
Theorem nothing_recorded_without_OnChanges
    {Value Component CdRef Element Exn : Type}
    (env : Env Value Component CdRef Element Exn)
    (l : list (string * Value)) (s : Strategy Value Component CdRef) :
  implementsOnChanges s = false ->
  inputChanges (after (setInputValues env l s)) = inputChanges s.
Proof.
  revert s. induction l as [| [p v] l IH]; intros s Himpl.
  - reflexivity.
  - rewrite setInputValues_cons.
    destruct (setInputValue_without_OnChanges env s p v Himpl) as [Hic Himpl'].
    destruct (setInputValue env p v s) as [[u | e] s1 es1]; cbn [after] in *.
    + specialize (IH s1 Himpl').
      destruct (setInputValues env l s1) as [c2 s2 es2]; cbn [after] in *.
      now rewrite IH.
    + exact Hic.
Qed.

(** X19.  Any row of [setInputValue] calls requests at most one change
    detection from the scheduler, and none at all while one is already
    held: the changes of a batch share one change detection. *)
Theorem one_change_detection_per_batch
    {Value Component CdRef Element Exn : Type}
    (env : Env Value Component CdRef Element Exn)
    (l : list (string * Value)) (s : Strategy Value Component CdRef) :
  (count_op is_ScheduleBeforeRender (events (setInputValues env l s)) <= 1)%nat /\
  (held (scheduledChangeDetectionFn s) = true ->
   count_op is_ScheduleBeforeRender (events (setInputValues env l s)) = 0%nat).
Proof.
  assert (Hstrong : forall s0 : Strategy Value Component CdRef,
    (held (scheduledChangeDetectionFn s0) = true ->
       count_op is_ScheduleBeforeRender (events (setInputValues env l s0)) = 0%nat) /\
    (count_op is_ScheduleBeforeRender (events (setInputValues env l s0)) <= 1)%nat).
  { induction l as [| [p v] l IH]; intros s0.
    - cbn. split; [reflexivity | lia].
    - rewrite setInputValues_cons.
      pose proof (setInputValue_requests env s0 p v) as (Hheld & Hle & Hone).
      destruct (setInputValue env p v s0) as [[u | e] s1 es1];
        cbn [after events] in *.
      + destruct (IH s1) as [IHheld IHle].
        destruct (setInputValues env l s1) as [c2 s2 es2]; cbn [after events] in *.
        rewrite count_op_app. split.
        * intros H0. destruct (Hheld H0) as [-> H1]. now rewrite (IHheld H1).
        * assert (E : count_op is_ScheduleBeforeRender es1 = 0%nat
                      \/ count_op is_ScheduleBeforeRender es1 = 1%nat) by lia.
          destruct E as [E | E].
          -- lia.
          -- rewrite (IHheld (Hone E)). lia.
      + split; [intros H0; now destruct (Hheld H0) | exact Hle]. }
  destruct (Hstrong s) as [H0 H1]. now split.
Qed.

Section ChangeDetection.
Context {Value Component CdRef Element Exn : Type}.
Variable env : Env Value Component CdRef Element Exn.

Local Abbreviation State := (Strategy Value Component CdRef).





End ChangeDetection.




Section Lifecycle.
Context {Value Component CdRef Element Exn : Type}.
Variable env : Env Value Component CdRef Element Exn.

Local Abbreviation State := (Strategy Value Component CdRef).

Lemma disconnect_connected (s : State) (c : Component) :
  componentRef s = Some c ->
  scheduledDestroyFn s = None ->
  disconnect (Exn := Exn) s
    = mkResult _ (Normal tt) (with_scheduledDestroyFn (Some CancelDestroy) s)
        [mkEvent (Schedule DESTROY_DELAY) s].
Proof.
  intros Hc Hf. unfold disconnect, runInZone, seq, get, set, emit.
  now rewrite Hc, Hf.
Qed.

Lemma scheduled_destroy_done (s : State) (c c' : Component) :
  componentRef s = Some c ->
  destroy env c = Done c' ->
  scheduled_destroy env s
    = mkResult _ (Normal tt)
        (with_viewChangeDetectorRef None
           (with_componentRef None (with_componentRef (Some c') s)))
        [mkEvent Destroy s].
Proof.
  intros Hc Hd. unfold scheduled_destroy, on_component, seq, get, set.
  rewrite Hc. cbn. now rewrite Hc, Hd.
Qed.

Lemma connect_pending (s : State) (f : CancelFn) (element : Element) :
  scheduledDestroyFn s = Some f ->
  connect env element s
    = mkResult _ (Normal tt) (with_scheduledDestroyFn None s)
        [mkEvent (Cancel f) s].
Proof.
  intros Hf. unfold connect, runInZone, seq, get, set, emit.
  now rewrite Hf.
Qed.

Lemma seq_get {A B} (f : State -> A) (k : A -> Action Value Component CdRef Exn B)
    (s : State) :
  seq (get f) k s = k (f s) s.
Proof. unfold seq, get. now destruct (k (f s) s). Qed.

Lemma seq_ask_first {A B} (o : Op Value) (a : Answer Exn A)
    (k : A -> Action Value Component CdRef Exn B) (s : State) :
  hd_error (ops (events (seq (ask o a) k s))) = Some o.
Proof.
  unfold seq, ask. destruct a as [x | e]; [| reflexivity].
  now destruct (k x s).
Qed.

Lemma connect_creates_first (s : State) (element : Element) :
  componentRef s = None ->
  scheduledDestroyFn s = None ->
  hd_error (ops (events (connect env element s))) = Some Create.
Proof.
  intros Hc Hf.
  unfold connect, runInZone.
  rewrite seq_get, Hf, seq_get, Hc.
  unfold initializeComponent. apply seq_ask_first.
Qed.

End Lifecycle.

(** X23.  [disconnect] never throws, asks the scheduler for the destroy
    timer (with the delay of 10 ms) only if a component exists and no timer
    is held, and never touches the component; called again at once, it does
    nothing. *)
Theorem disconnect_schedules_destroy_once
    {Value Component CdRef Exn : Type}
    (s : Strategy Value Component CdRef) :
  let r := disconnect (Exn := Exn) s in
  completion r = Normal tt /\
  ops (events r)
    = (if held (componentRef s) && negb (held (scheduledDestroyFn s))
       then [Schedule 10] else []) /\
  componentRef (after r) = componentRef s /\
  disconnect (Exn := Exn) (after r) = mkResult _ (Normal tt) (after r) [].
Proof.
  unfold disconnect, runInZone, seq, get, set, emit, done.
  destruct (componentRef s) as [c |] eqn:Hc;
    destruct (scheduledDestroyFn s) as [f |] eqn:Hf;
    cbn; rewrite ?Hc, ?Hf; cbn; repeat split.
Qed.

(** X24.  [connect] on an element whose destroy timer is held only cancels
    the timer: [disconnect] followed by [connect] (before the timer fires)
    gives back the state before the [disconnect], with the component
    neither destroyed nor created anew. *)
Theorem connect_cancels_pending_destroy
    {Value Component CdRef Element Exn : Type}
    (env : Env Value Component CdRef Element Exn)
    (s : Strategy Value Component CdRef) (c : Component) (element : Element) :
  componentRef s = Some c ->
  scheduledDestroyFn s = None ->
  let s1 := after (disconnect (Exn := Exn) s) in
  scheduledDestroyFn s1 = Some CancelDestroy /\
  connect env element s1
    = mkResult _ (Normal tt) s [mkEvent (Cancel CancelDestroy) s1].
Proof.
  intros Hc Hf. cbn zeta.
  rewrite (disconnect_connected s c Hc Hf). cbn [after].
  split; [reflexivity |].
  rewrite (connect_pending env _ CancelDestroy element) by reflexivity.
  f_equal. destruct s; cbn in *; now subst.
Qed.

(** X25.  Once the destroy timer has fired, the component is gone but the
    timer's cancel function is still held.  The next [connect] therefore
    only calls that function and forgets it, creating no component; it
    takes one more [connect] to create the component again. *)
Theorem reconnect_after_destroy_takes_two_connects
    {Value Component CdRef Element Exn : Type}
    (env : Env Value Component CdRef Element Exn)
    (s : Strategy Value Component CdRef) (c c' : Component) (element : Element) :
  componentRef s = Some c ->
  scheduledDestroyFn s = None ->
  destroy env c = Done c' ->
  let destroyed := after (scheduled_destroy env (after (disconnect (Exn := Exn) s))) in
  let r := connect env element destroyed in
  componentRef destroyed = None /\
  scheduledDestroyFn destroyed = Some CancelDestroy /\
  completion r = Normal tt /\
  ops (events r) = [Cancel CancelDestroy] /\
  componentRef (after r) = None /\
  scheduledDestroyFn (after r) = None /\
  hd_error (ops (events (connect env element (after r)))) = Some Create.
Proof.
  intros Hc Hf Hd. cbn zeta.
  rewrite (disconnect_connected s c Hc Hf). cbn [after].
  rewrite (scheduled_destroy_done env _ c c') by assumption. cbn [after].
  rewrite (connect_pending env _ CancelDestroy element) by reflexivity.
  cbn [after events completion].
  repeat (split; [reflexivity |]).
  now apply connect_creates_first.
Qed.

(** X26.  If creating the component throws, [connect] throws the same
    value and leaves the strategy as it was: no component is held, so a
    later [connect] tries to create it again. *)
Theorem connect_propagates_creation_failure
    {Value Component CdRef Element Exn : Type}
    (env : Env Value Component CdRef Element Exn)
    (s : Strategy Value Component CdRef) (element : Element) (e : Exn) :
  componentRef s = None ->
  scheduledDestroyFn s = None ->
  create env element = Raised e ->
  connect env element s = mkResult _ (Throw e) s [mkEvent Create s].
Proof.
  intros Hc Hf He.
  unfold connect, initializeComponent, runInZone, ask, seq, get.
  now rewrite Hf, Hc, He.
Qed.

Section Initialize.
Context {Value Component CdRef Element Exn : Type}.
Variable env : Env Value Component CdRef Element Exn.

Local Abbreviation State := (Strategy Value Component CdRef).

(** With a component, [setInputValue] keeps the component and the cache,
    and calls out only to write the property and to ask for a change
    detection. *)
Lemma setInputValue_connected_frame (s : State) (c : Component)
    (p : string) (v : Value) :
  componentRef s = Some c ->
  let r := setInputValue env p v s in
  held (componentRef (after r)) = true /\
  initialInputValues (after r) = initialInputValues s /\
  forall ev, In ev (events r) ->
    op ev = ScheduleBeforeRender \/ op ev = SetProperty p v.
Proof.
  intros Hc.
  destruct (ignored env s p v) eqn:Hi.
  - rewrite (setInputValue_ignored env s c p v Hc Hi). cbn.
    rewrite Hc. repeat split. intros ev [].
  - rewrite (setInputValue_effective env s c p v Hc Hi).
    destruct (set_property env p v c) as [c' | e c'];
      [destruct (scheduledChangeDetectionFn s) |];
      cbn -[marked]; repeat split;
      intros ev Hev; cbn in Hev;
      repeat (destruct Hev as [<- | Hev]; [cbn; tauto |]); destruct Hev.
Qed.

Lemma forEach_cons {A} (f : A -> Action Value Component CdRef Exn unit)
    (a : A) (l : list A) (s : State) :
  forEach f (a :: l) s
    = match f a s with
      | mkResult _ (Normal _) s1 es1 =>
          match forEach f l s1 with
          | mkResult _ c s2 es2 => mkResult _ c s2 (es1 ++ es2)
          end
      | mkResult _ (Throw e) s1 es1 => mkResult _ (Throw e) s1 es1
      end.
Proof. reflexivity. Qed.

(** The loop of [initializeInputs], over any list of names. *)
Lemma initializeInputs_loop (l : list string) (s : State) (c : Component) :
  componentRef s = Some c ->
  let r :=
    forEach
      (fun propName =>
         seq (get initialInputValues)
           (fun m =>
              match assoc_get propName m with
              | Some v => setInputValue env propName v
              | None => done tt
              end))
      l s in
  held (componentRef (after r)) = true /\
  initialInputValues (after r) = initialInputValues s /\
  forall ev, In ev (events r) ->
    op ev = ScheduleBeforeRender \/
    exists p v, op ev = SetProperty p v /\ In p l /\
                assoc_get p (initialInputValues s) = Some v.
Proof.
  revert s c. induction l as [| p l IH]; intros s c Hc.
  - cbn. rewrite Hc. repeat split. intros ev [].
  - cbn zeta. rewrite forEach_cons, seq_get.
    destruct (assoc_get p (initialInputValues s)) as [v |] eqn:Hp.
    + pose proof (setInputValue_connected_frame s c p v Hc) as (Hheld & Hm & Hev).
      destruct (setInputValue env p v s) as [[u | e] s1 es1];
        cbn [after events] in *.
      * destruct (componentRef s1) as [c1 |] eqn:Hc1; [| discriminate].
        specialize (IH s1 c1 Hc1). cbn zeta in IH.
        destruct IH as (IHheld & IHm & IHev).
        destruct (forEach _ l s1) as [c2 s2 es2].
        cbn [after events] in *.
        split; [exact IHheld |]. split; [now rewrite IHm |].
        intros ev Hin. apply in_app_or in Hin as [Hin | Hin].
        -- destruct (Hev ev Hin) as [H | H]; [now left |].
           right. exists p, v. cbn. tauto.
        -- destruct (IHev ev Hin) as [H | (q & x & H1 & H2 & H3)]; [now left |].
           right. exists q, x. rewrite <- Hm. cbn. tauto.
      * split; [exact Hheld |]. split; [exact Hm |].
        intros ev Hin. destruct (Hev ev Hin) as [H | H]; [now left |].
        right. exists p, v. cbn. tauto.
    + change (done (Exn := Exn) tt s)
        with (mkResult (Exn := Exn) unit (Normal tt) s []).
      cbv beta iota.
      specialize (IH s c Hc). cbn zeta in IH.
      destruct IH as (IHheld & IHm & IHev).
      destruct (forEach _ l s) as [c2 s2 es2].
      cbn [after events app] in *.
      split; [exact IHheld |]. split; [exact IHm |].
      intros ev Hin.
      destruct (IHev ev Hin) as [H | (q & x & H1 & H2 & H3)]; [now left |].
      right. exists q, x. cbn. tauto.
Qed.

End Initialize.

(** X27.  [initializeInputs] hands to the component only values that were
    cached for a declared input: besides requests for a change detection,
    every call it makes writes a property that is an input of the factory,
    with the value cached for it.  If it returns, the cache is empty, so
    values cached under other names are dropped; if a write throws, the
    cache is kept whole. *)
Theorem initializeInputs_applies_declared_inputs_only
    {Value Component CdRef Element Exn : Type}
    (env : Env Value Component CdRef Element Exn)
    (s : Strategy Value Component CdRef) (c : Component) :
  componentRef s = Some c ->
  let r := initializeInputs env s in
  (forall ev, In ev (events r) ->
     op ev = ScheduleBeforeRender \/
     exists p v, op ev = SetProperty p v /\ In p (inputs env) /\
                 assoc_get p (initialInputValues s) = Some v) /\
  (completion r = Normal tt -> initialInputValues (after r) = []) /\
  (forall e, completion r = Throw e ->
     initialInputValues (after r) = initialInputValues s).
Proof.
  intros Hc. cbn zeta. unfold initializeInputs.
  pose proof (initializeInputs_loop env (inputs env) s c Hc) as (_ & Hm & Hev).
  cbn zeta in Hm, Hev. unfold seq, set.
  destruct (forEach _ (inputs env) s) as [[u | e] s1 es1];
    cbn [after events completion] in *.
  - rewrite app_nil_r.
    split; [exact Hev |]. split; [reflexivity | discriminate].
  - split; [exact Hev |]. split; [discriminate | intros e0 _; exact Hm].
Qed.

(* ----------------------------------------------------------------- *)
(** *** The properties at work on the sample element *)

Section Witnesses.
Import ElementSamples.

Lemma input_is_cached_until_component_exists_witness :
  completion
    (getInputValue greeter name_input
       (after (setInputValue greeter name_input (JsNumber 1) (constructor greeter))))
    = Normal (JsNumber 1).
Proof.
  pose proof (input_is_cached_until_component_exists greeter (constructor greeter)
                name_input (JsNumber 1)) as T.
  destruct T as (_ & Hget & _).
  - reflexivity.
  - exact Hget.
Defined.

Lemma equal_value_is_ignored_witness :
  setInputValue greeter name_input (JsNumber 1) named
    = mkResult _ (Normal tt) named [].
Proof.
  apply (equal_value_is_ignored greeter named [(name_input, JsNumber 1)]
           name_input (JsNumber 1)).
  - reflexivity.
  - reflexivity.
  - left; reflexivity.
Defined.

Lemma first_undefined_is_a_change_witness :
  pending_change (after (setInputValue greeter name_input JsUndefined connected))
    name_input
    = Some (mkSimpleChange JsUndefined JsUndefined true).
Proof.
  pose proof (first_undefined_is_a_change greeter connected
                [] [(name_input, JsUndefined)] name_input JsUndefined) as T.
  destruct T as (_ & Hp & _); [reflexivity .. |].
  exact Hp.
Defined.

Lemma new_value_is_written_and_scheduled_witness :
  ops (events (setInputValue greeter name_input (JsNumber 1) connected))
    = [SetProperty name_input (JsNumber 1); ScheduleBeforeRender].
Proof.
  pose proof (new_value_is_written_and_scheduled greeter connected
                [] [(name_input, JsNumber 1)] name_input (JsNumber 1)) as T.
  destruct T as (_ & _ & _ & _ & _ & Hops & _); [reflexivity .. |].
  exact Hops.
Defined.

Lemma failed_write_leaves_change_recorded_witness :
  completion (setInputValue readonly_greeter name_input (JsNumber 1) connected)
    = Throw 8%nat /\
  hasInputChanges
    (after (setInputValue readonly_greeter name_input (JsNumber 1) connected))
    = true.
Proof.
  pose proof (failed_write_leaves_change_recorded readonly_greeter connected
                [] [] name_input (JsNumber 1) 8%nat) as T.
  destruct T as (Hc & _ & _ & Hh & _); [reflexivity .. |].
  split; [exact Hc | exact Hh].
Defined.

Lemma pending_change_absorbs_new_value_witness :
  pending_change (after (setInputValue greeter name_input (JsNumber 2) pending_named))
    name_input
    = Some (mkSimpleChange JsUndefined (JsNumber 2) true).
Proof.
  pose proof (pending_change_absorbs_new_value greeter pending_named
                [(name_input, JsNumber 1)] name_input (JsNumber 2)
                (mkSimpleChange JsUndefined (JsNumber 1) true)) as T.
  destruct T as (Hp & _); [reflexivity .. |].
  exact Hp.
Defined.

Lemma new_change_is_recorded_witness :
  pending_change (after (setInputValue greeter name_input (JsNumber 2) named))
    name_input
    = Some (mkSimpleChange (JsNumber 1) (JsNumber 2) false).
Proof.
  pose proof (new_change_is_recorded greeter named
                [(name_input, JsNumber 1)] name_input (JsNumber 2)) as T.
  destruct T as (Hp & _); [reflexivity .. |].
  exact Hp.
Defined.

Lemma inherited_name_is_never_recorded_witness :
  pending_change (after (setInputValue greeter toString_member (JsNumber 1) connected))
    toString_member
    = None.
Proof.
  pose proof (inherited_name_is_never_recorded greeter connected
                [] [(toString_member, JsNumber 1)] toString_member (JsNumber 1)) as T.
  destruct T as (_ & _ & Hp); [reflexivity .. |].
  exact (Hp toString_member).
Defined.

Lemma nothing_recorded_without_OnChanges_witness :
  inputChanges
    (after (setInputValues plain_greeter
              [(name_input, JsNumber 1); (size_input, JsNumber 2)] plain_connected))
    = None.
Proof.
  apply (nothing_recorded_without_OnChanges plain_greeter
           [(name_input, JsNumber 1); (size_input, JsNumber 2)] plain_connected).
  reflexivity.
Defined.



Lemma connect_cancels_pending_destroy_witness :
  after (connect greeter tt (after (disconnect (Exn := nat) connected))) = connected.
Proof.
  pose proof (connect_cancels_pending_destroy greeter connected [] tt) as T.
  destruct T as (_ & Hc); [reflexivity .. |].
  cbn zeta in Hc. now rewrite Hc.
Defined.

Lemma reconnect_after_destroy_takes_two_connects_witness :
  let destroyed :=
    after (scheduled_destroy greeter (after (disconnect (Exn := nat) connected))) in
  componentRef (after (connect greeter tt destroyed)) = None /\
  hd_error (ops (events (connect greeter tt (after (connect greeter tt destroyed)))))
    = Some Create.
Proof.
  pose proof (reconnect_after_destroy_takes_two_connects greeter connected
                [] [] tt) as T.
  destruct T as (_ & _ & _ & _ & Hnone & _ & Hcreate); [reflexivity .. |].
  split; [exact Hnone | exact Hcreate].
Defined.

Lemma connect_propagates_creation_failure_witness :
  connect broken_greeter tt (constructor broken_greeter)
    = mkResult _ (Throw 4%nat) (constructor broken_greeter)
        [mkEvent Create (constructor broken_greeter)].
Proof.
  apply (connect_propagates_creation_failure broken_greeter
           (constructor broken_greeter) tt 4%nat); reflexivity.
Defined.

Lemma initializeInputs_applies_declared_inputs_only_witness :
  ops (events (initializeInputs greeter just_created))
    = [SetProperty name_input (JsNumber 1); ScheduleBeforeRender] /\
  initialInputValues (after (initializeInputs greeter just_created)) = [].
Proof.
  pose proof (initializeInputs_applies_declared_inputs_only greeter just_created []) as T.
  destruct T as (_ & Hempty & _); [reflexivity .. |].
  split; [reflexivity | apply Hempty; reflexivity].
Defined.

End Witnesses.

End ElementsFacts.
